(** * cog-musicgen-remixer: the prediction pipeline of [predict.py]

    A shallow embedding of [Predictor.predict] and [set_all_seeds], and of
    the functions around them.

    - Tensor samples are IEEE binary32 values ([torch.float32]), modelled
      with the Standard Library's [spec_float] at precision 24 and
      exponent bound 128, so NaN, the infinities and the rounding of every
      division are the ones the code computes.
    - Python [float] scalars are binary64: Rocq's primitive [float].
    - The working directory is a finite map from absolute paths to files.
    - The networks (separator, structure analyser, generator, diffusion
      decoder) and the external programs ([pget], [ffmpeg]) are
      collaborators: fields of one record, quantified over in theorems. *)

From Stdlib Require Import ZArith List Ascii String Bool Lia.
From Stdlib Require Import SpecFloat PrimFloat Uint63 FloatOps.
From stdpp Require Import gmap strings pretty.
Import ListNotations.

#[local] Set Warnings "-inexact-float".
#[local] Open Scope Z_scope.

(** ** binary32 samples *)

Module F32.
Definition prec : Z := 24.
Definition emax : Z := 128.

Definition t : Type := spec_float.

Definition of_Z (z : Z) : t := binary_normalize prec emax z 0 false.
  (** [m * 2^e], correctly rounded. *)
Definition scaled (m e : Z) : t := binary_normalize prec emax m e false.

Definition zero : t := S754_zero false.
Definition one : t := Eval vm_compute in of_Z 1.
Definition half : t := Eval vm_compute in scaled 1 (-1).
Definition nan : t := S754_nan.
Definition inf : t := S754_infinity false.
Definition neg_inf : t := S754_infinity true.

Definition div : t -> t -> t := SFdiv prec emax.
Definition mul : t -> t -> t := SFmul prec emax.
Definition abs : t -> t := SFabs.
Definition eqb : t -> t -> bool := SFeqb.
Definition ltb : t -> t -> bool := SFltb.

Definition is_nan (x : t) : bool :=
    match x with S754_nan => true | _ => false end.
Definition is_inf (x : t) : bool :=
    match x with S754_infinity _ => true | _ => false end.
Definition is_finite (x : t) : bool := negb (is_nan x || is_inf x).

  (** [torch.max] propagates NaN. *)
Definition max (a b : t) : t :=
    if is_nan a || is_nan b then nan else if ltb a b then b else a.
End F32.

(** ** Tensors

    A waveform tensor of shape [1, 1, N] is the list of its [N] samples:
    the leading unit dimensions carry no data.  The model follows the mono
    layout; a stereo waveform [1, 2, N] is outside it. *)

Abbreviation tensor := (list F32.t).

(** The exceptions of a prediction call.  [TypeErr] is Python's
    [TypeError], raised by a call whose arguments match no signature. *)
Inductive exn : Type :=
| ValueError (msg : string)
| RuntimeError (msg : string)
| TypeErr (msg : string)
| ZeroDivisionError
| CalledProcessError (cmd : string)
| FileNotFoundError (path : string).

Inductive result (A : Type) : Type :=
| Ok (a : A)
| Raise (e : exn).
Arguments Ok {A} a.
Arguments Raise {A} e.

Module Torch.
Definition isnan (w : tensor) : list bool := map F32.is_nan w.
Definition isinf (w : tensor) : list bool := map F32.is_inf w.

  (** [w[mask] = v] *)
Fixpoint masked_fill (w : tensor) (mask : list bool) (v : F32.t) : tensor :=
    match w, mask with
    | x :: w', b :: mask' => (if b then v else x) :: masked_fill w' mask' v
    | _, _ => w
    end.

Definition abs (w : tensor) : tensor := map F32.abs w.

  (** [w.max()]: a reduction over no element raises. *)
Definition max (w : tensor) : result F32.t :=
    match w with
    | [] => Raise (RuntimeError "max(): Expected reduction dim to be specified for input.numel() == 0")
    | x :: w' => Ok (fold_left F32.max w' x)
    end.

  (** [w / a] and [c * w] for a scalar. *)
Definition div_scalar (w : tensor) (a : F32.t) : tensor :=
    map (fun x => F32.div x a) w.
Definition mul_scalar (c : F32.t) (w : tensor) : tensor :=
    map (fun x => F32.mul c x) w.
Definition scalar_mul (w : tensor) (c : F32.t) : tensor :=
    map (fun x => F32.mul x c) w.

  (** [w[..., :n]] *)
Definition take (n : nat) (w : tensor) : tensor := firstn n w.

  (** [row[:] = src] for a row of [n] slots: [src] must have [n] samples,
      or one sample, which is broadcast. *)
Definition assign_row (n : nat) (src : tensor) : result tensor :=
    if (length src =? n)%nat then Ok src
    else match src with
         | [x] => Ok (repeat x n)
         | _ => Raise (RuntimeError "The expanded size of the tensor must match the existing size")
         end.

  (** [w.size()]: the shape, a [torch.Size]; [1, 1, N] in the mono
      layout. *)
Definition size (w : tensor) : list nat := [1; 1; length w]%nat.

  (** A positional argument where a size is expected: an integer, or a
      sequence of integers such as a [torch.Size]. *)
Inductive size_arg : Type :=
  | Int (n : nat)
  | Size (shape : list nat).

  (** [torch.zeros(a, b)] on two positional arguments.  The sizes are
      accepted as integers, one per dimension (a sequence is accepted
      only as the single argument): two integers give the buffer of [a]
      rows of [b] zeros, anything else matches no signature. *)
Definition zeros (a b : size_arg) : result (list tensor) :=
    match a, b with
    | Int rows, Int n => Ok (repeat (repeat F32.zero n) rows)
    | _, _ => Raise (TypeErr "zeros() received an invalid combination of arguments")
    end.

  (** The number of slots in a row of a two-dimensional buffer. *)
Definition row_length (buffer : list tensor) : nat :=
    match buffer with
    | row :: _ => length row
    | [] => 0%nat
    end.
End Torch.

(** ** Post-processing steps of [predict] *)

(** Lines 299-303 and 388-392: both masks are taken first, then
    [wav[mask_nan] = 0] and [wav[mask_inf] = 1]. *)
Definition sanitize (wav : tensor) : tensor :=
  let mask_nan := Torch.isnan wav in
  let mask_inf := Torch.isinf wav in
  let wav := Torch.masked_fill wav mask_nan F32.zero in
  Torch.masked_fill wav mask_inf F32.one.

(** Lines 305-306: [wav_amp = wav.abs().max(); wav = wav / wav_amp]. *)
Definition normalize_unguarded (wav : tensor) : result tensor :=
  match Torch.max (Torch.abs wav) with
  | Raise e => Raise e
  | Ok wav_amp => Ok (Torch.div_scalar wav wav_amp)
  end.

(** Lines 394-396: [if wav_amp != 0: wav = wav / wav_amp]. *)
Definition normalize_guarded (wav : tensor) : result tensor :=
  match Torch.max (Torch.abs wav) with
  | Raise e => Raise e
  | Ok wav_amp =>
      if negb (F32.eqb wav_amp F32.zero)
      then Ok (Torch.div_scalar wav wav_amp)
      else Ok wav
  end.

(** [0.5 * (w / amp)[..., :n] * 0.5] *)
Definition attenuate (w : tensor) (amp : F32.t) (n : nat) : tensor :=
  Torch.scalar_mul
    (Torch.mul_scalar F32.half (Torch.take n (Torch.div_scalar w amp)))
    F32.half.

#[export] Instance result_ret : MRet result := @Ok.
#[export] Instance result_bind : MBind result := fun A B k r =>
  match r with
  | Ok a => k a
  | Raise e => Raise e
  end.

(** Lines 376-396.  [wav] is the waveform left by lines 299-306, [vocal]
    the vocal stem, [wav_length] the value read at line 316.

    Line 383 is [torch.zeros(2, wav.size())]: the integer 2 followed by
    the [torch.Size] of [wav], two positional arguments.  Lines 384-396
    are written as they stand: the two rows of the buffer are filled by
    slice assignment, and the second sanitation and the guarded
    normalization act on [wav], which nothing reads afterwards.  Up to
    line 383 nothing depends on the channel layout of [wav]: the peaks
    are taken over all samples, line 381 acts sample by sample and cuts
    at the waveform's own length. *)
Definition mix (wav vocal : tensor) (wav_length : nat) : result (list tensor) :=
  wav_amp ← Torch.max (Torch.abs wav);
  vocal_amp ← Torch.max (Torch.abs vocal);
  let wav := attenuate wav wav_amp wav_length in
  output ← Torch.zeros (Torch.Int 2) (Torch.Size (Torch.size wav));
  let n := Torch.row_length output in
  row0 ← Torch.assign_row n (attenuate wav wav_amp wav_length);
  row1 ← Torch.assign_row n (attenuate vocal vocal_amp wav_length);
  let output := [row0; row1] in
  let wav := sanitize wav in
  _ ← normalize_guarded wav;
  mret output.

(** ** Python scalars *)

(** [int] to [float]; exact below 2^53 in absolute value. *)
Definition float_of_int (z : Z) : float :=
  if z <? 0 then PrimFloat.opp (PrimFloat.of_uint63 (Uint63.of_Z (- z)))
  else PrimFloat.of_uint63 (Uint63.of_Z z).

(** [a / b] on two [int]s. *)
Definition int_truediv (a b : Z) : result float :=
  if b =? 0 then Raise ZeroDivisionError
  else Ok (PrimFloat.div (float_of_int a) (float_of_int b)).

(** [x / y] on two [float]s. *)
Definition float_truediv (x y : float) : result float :=
  if PrimFloat.eqb y 0%float then Raise ZeroDivisionError
  else Ok (PrimFloat.div x y).

(** [not x] for an [Optional[int]] and an [Optional[float]]. *)
Definition not_int (x : option Z) : bool :=
  match x with None => true | Some v => v =? 0 end.
Definition not_float (x : option float) : bool :=
  match x with None => true | Some v => PrimFloat.eqb v 0%float end.

(** Line 255-256: [if not seed or seed == -1: seed = torch.seed() % 2 ** 32 - 1];
    [drawn] is the value of [torch.seed()]. *)
Definition effective_seed (seed : option Z) (drawn : Z) : Z :=
  if not_int seed || (match seed with Some v => v =? -1 | None => false end)
  then drawn mod 2 ^ 32 - 1
  else match seed with Some v => v | None => 0 end.

(** Lines 267-271; [bpm] is [int(music_input_analysis.bpm)] when the
    analysis has a tempo. *)
Definition effective_beat_sync_threshold
    (beat_sync_threshold : option float) (bpm : option Z) : result float :=
  if not_float beat_sync_threshold
     || (match beat_sync_threshold with
         | Some v => PrimFloat.eqb v (-1)%float
         | None => false
         end)
  then match bpm with
       | Some b => beats ← int_truediv b 60; float_truediv 1.1%float beats
       | None => Ok 0.75%float
       end
  else match beat_sync_threshold with
       | Some v => Ok v
       | None => Ok 0.75%float
       end.

(** ** The world of one prediction call *)

Inductive file : Type :=
| Weights
| Directory
| Wav (channels : list tensor) (sample_rate : Z) (strategy : string)
      (loudness_compressor : bool)
| Other (tag : string)
| Transcoded (src : file).

(** What the generator is asked: everything [predict] hands to it,
    directly or through the model object it configured. *)
Record generation_request : Type := GenerationRequest {
  req_prompt : string;
  req_audio : tensor;
  req_sr : Z;
  req_duration : float;
  req_top_k : Z;
  req_top_p : float;
  req_temperature : float;
  req_cfg_coef : Z;
  req_chroma_coefficient : float;
  req_large_chord_voca : bool;
  req_seed : Z
}.

Inductive event : Type :=
| Rmtree (path : string)
| Pget (url dest : string)
| LoadCkpt (path : string)
| SmallChordVocab
| RandomSeed (s : Z)
| PythonHashSeed (s : Z)
| NumpySeed (s : Z)
| TorchManualSeed (s : Z)
| CudaManualSeed (s : Z)
| CudnnDeterministic
| Analyze (path : string)
| TorchaudioLoad (path : string)
| SeparateVocals (audio : tensor) (sr : Z)
| AudioWrite (stem : string) (channels : list tensor) (sample_rate : Z)
             (strategy : string) (loudness_compressor : bool)
| Generate (req : generation_request) (wav : tensor)
| MbdDecode (tokens : list Z) (wav : tensor)
| Ffmpeg (src dst : string) (status : Z)
| Remove (path : string).

Record world : Type := World {
  fs : gmap string file;
  log : list event
}.

Definition fresh (files : gmap string file) : world := World files [].

(** State and exceptions: an exception keeps the world reached so far. *)
Definition M (A : Type) : Type := world -> result A * world.

#[export] Instance M_ret : MRet M := fun A a w => (Ok a, w).
#[export] Instance M_bind : MBind M := fun A B k m w =>
  match m w with
  | (Ok a, w') => k a w'
  | (Raise e, w') => (Raise e, w')
  end.

Definition raise {A : Type} (e : exn) : M A := fun w => (Raise e, w).
Definition lift {A : Type} (r : result A) : M A := fun w => (r, w).
Definition emit (e : event) : M unit :=
  fun w => (Ok tt, World (fs w) (log w ++ [e])).
Definition get_fs : M (gmap string file) := fun w => (Ok (fs w), w).
Definition put_fs (files : gmap string file) : M unit :=
  fun w => (Ok tt, World files (log w)).

(** Paths: the process runs in [/src], where the source puts its weights. *)
Definition cwd : string := "/src/".
Definition resolve (p : string) : string :=
  match p with
  | String "/"%char _ => p
  | _ => cwd +:+ p
  end.

Definition path_exists (p : string) : M bool :=
  files ← get_fs; mret (bool_decide (is_Some (files !! resolve p))).
Definition isfile (p : string) : M bool :=
  files ← get_fs;
  mret (match files !! resolve p with
        | Some Directory | None => false
        | Some _ => true
        end).
Definition isdir (p : string) : M bool :=
  files ← get_fs;
  mret (match files !! resolve p with
        | Some Directory => true
        | _ => false
        end).

(** [os.remove] *)
Definition os_remove (p : string) : M unit :=
  files ← get_fs;
  match files !! resolve p with
  | None => raise (FileNotFoundError p)
  | Some _ => put_fs (delete (resolve p) files);; emit (Remove p)
  end.

(** [shutil.rmtree]: the directory and what lies below it. *)
Definition below (dir p : string) : bool :=
  String.eqb p dir || String.prefix (dir +:+ "/") p.
Definition rmtree (p : string) : M unit :=
  files ← get_fs;
  put_fs (filter (fun kv => below (resolve p) kv.1 = false) files);;
  emit (Rmtree p).

Definition write_file (p : string) (f : file) : M unit :=
  files ← get_fs; put_fs (<[resolve p := f]> files).

(** ** Collaborators *)

Record model_cfg : Type := ModelCfg {
  n_q : Z;
  sample_rate : Z
}.

Record collaborators : Type := Collaborators {
  (** exit status of [pget url dest] *)
  pget : string -> string -> Z;
  (** configuration stored in the checkpoint at a path *)
  checkpoint_cfg : string -> model_cfg;
  (** value of [torch.seed()] *)
  torch_seed : Z;
  (** [allin1.analyze(path).bpm], as [int(bpm)] when present *)
  analyze_bpm : string -> option Z;
  (** [torchaudio.load(path)]: samples and sample rate *)
  torchaudio_load : string -> tensor * Z;
  (** the separator, with both stems converted to the engine's rate *)
  demucs : model_cfg -> tensor -> Z -> tensor * tensor;
  (** [model.generate_with_chroma(..., return_tokens=True)] *)
  generate_with_chroma : model_cfg -> generation_request -> tensor * list Z;
  (** [mbd.tokens_to_wav] *)
  tokens_to_wav : list Z -> tensor;
  (** [ffmpeg -i src dst] on the content of [src]: exit status and what it
      leaves at [dst] *)
  ffmpeg : option file -> Z * option file
}.

(** ** [predict] *)

Record inputs : Type := Inputs {
  model_version : string;
  prompt : option string;
  music_input : option string;
  multi_band_diffusion : bool;
  normalization_strategy : string;
  beat_sync_threshold : option float;
  large_chord_voca : bool;
  chroma_coefficient : float;
  top_k : Z;
  top_p : float;
  temperature : float;
  classifier_free_guidance : Z;
  output_format : string;
  return_instrumental : bool;
  seed : option Z
}.

(** [np.random.seed(seed)]: the legacy generator takes a seed between 0
    and 2^32 - 1 and rejects any other integer. *)
Definition np_random_seed (seed : Z) : M unit :=
  if (0 <=? seed) && (seed <=? 2 ^ 32 - 1) then emit (NumpySeed seed)
  else raise (ValueError "Seed must be between 0 and 2**32 - 1").

(** Lines 491-497.  [random.seed] takes any integer and
    [os.environ["PYTHONHASHSEED"]] its decimal form; the seeds that
    [np.random.seed] lets through are all accepted by [torch.manual_seed]
    and [torch.cuda.manual_seed]. *)
Definition set_all_seeds (seed : Z) : M unit :=
  emit (RandomSeed seed);;
  emit (PythonHashSeed seed);;
  np_random_seed seed;;
  emit (TorchManualSeed seed);;
  emit (CudaManualSeed seed);;
  emit CudnnDeterministic.

(** [audiocraft.data.audio.audio_write]: the encoder is handed the buffer
    and leaves [stem.wav]. *)
Definition audio_write (stem : string) (channels : list tensor)
    (sample_rate : Z) (strategy : string) (loudness_compressor : bool) : M unit :=
  emit (AudioWrite stem channels sample_rate strategy loudness_compressor);;
  write_file (stem +:+ ".wav")
    (Wav channels sample_rate strategy loudness_compressor).

Section Pipeline.
Variable C : collaborators.

  (** [subprocess.check_call(["pget", url, dest])] *)
Definition check_call_pget (url dest : string) : M unit :=
    emit (Pget url dest);;
    if pget C url dest =? 0 then write_file dest Weights
    else raise (CalledProcessError "pget").

  (** [subprocess.call(["ffmpeg", "-i", src, dst])]: the status is returned,
      not raised. *)
Definition call_ffmpeg (src dst : string) : M Z :=
    files ← get_fs;
    let '(status, out) := ffmpeg C (files !! resolve src) in
    match out with
    | Some f => write_file dst f
    | None => mret tt
    end;;
    emit (Ffmpeg src dst status);;
    mret status.

  (** [load_ckpt(path, device)] *)
Definition load_ckpt (path : string) : M model_cfg :=
    files ← get_fs;
    match files !! resolve path with
    | None => raise (FileNotFoundError path)
    | Some _ => emit (LoadCkpt path);; mret (checkpoint_cfg C path)
    end.

  (** Lines 201-215. *)
Definition load_model (model_version : string) : M model_cfg :=
    d ← isdir "demix";
    (if d : bool then rmtree "demix" else mret tt);;
    d ← isdir "spec";
    (if d : bool then rmtree "spec" else mret tt);;
    present ← isfile ("musicgen-" +:+ model_version +:+ ".th");
    (if present : bool then mret tt
     else
       let url := "https://weights.replicate.delivery/default/musicgen-chord/musicgen-"
                    +:+ model_version +:+ ".th" in
       let dest := "/src/musicgen-" +:+ model_version +:+ ".th" in
       check_call_pget url dest);;
    load_ckpt ("/src/musicgen-" +:+ model_version +:+ ".th").

  (** Lines 407-415. *)
Definition export_main (output_format : string) : M string :=
    let wav_path := "out.wav" in
    if String.eqb output_format "mp3" then
      let mp3_path := "out.mp3" in
      e ← path_exists mp3_path;
      (if e : bool then os_remove mp3_path else mret tt);;
      _ ← call_ffmpeg wav_path mp3_path;
      os_remove wav_path;;
      mret mp3_path
    else mret wav_path.

  (** Lines 419-431. *)
Definition export_instrumental (output_format : string) : M string :=
    let inst_path := "background_synced.wav" in
    if String.eqb output_format "mp3" then
      let mp3_path := "out.mp3" in
      let mp3_inst_path := "background_synced.mp3" in
      e ← path_exists mp3_path;
      (if e : bool then os_remove mp3_path else mret tt);;
      _ ← call_ffmpeg inst_path mp3_inst_path;
      os_remove inst_path;;
      mret mp3_inst_path
    else mret inst_path.

  (** Lines 187-253: validation, model loading and configuration. *)
Definition configure (a : inputs) : M (string * string * model_cfg) :=
    prompt ← match prompt a with
             | None => raise (ValueError "Must provide `prompt`.")
             | Some p => mret p
             end;
    music_input ← match music_input a with
                  | None => raise (ValueError "Must provide `music_input`.")
                  | Some p => mret p
                  end;
    cfg ← load_model (model_version a);
    (if large_chord_voca a then mret tt else emit SmallChordVocab);;
    (if multi_band_diffusion a && (n_q cfg =? 8)
     then raise (ValueError "Multi-band Diffusion only works with non-stereo models.")
     else mret tt);;
    mret (prompt, music_input, cfg).

  (** What line 295 asks of the generator. *)
Definition request_of (a : inputs) (prompt : string) (music : tensor)
      (sr : Z) (duration : float) (seed : Z) : generation_request :=
    {| req_prompt := prompt;
       req_audio := music;
       req_sr := sr;
       req_duration := duration;
       req_top_k := top_k a;
       req_top_p := top_p a;
       req_temperature := temperature a;
       req_cfg_coef := classifier_free_guidance a;
       req_chroma_coefficient := chroma_coefficient a;
       req_large_chord_voca := large_chord_voca a;
       req_seed := seed |}.

  (** Lines 255-404: seeding, analysis, separation, generation,
      post-processing, up to the encoding of [out.wav]. *)
Definition produce (a : inputs) (prompt music_input : string)
      (cfg : model_cfg) : M unit :=
    let seed := effective_seed (seed a) (torch_seed C) in
    set_all_seeds seed;;
    emit (Analyze music_input);;
    let bpm := analyze_bpm C music_input in
    emit (TorchaudioLoad music_input);;
    let '(music, sr) := torchaudio_load C music_input in
    _ ← lift (effective_beat_sync_threshold (beat_sync_threshold a) bpm);
    let prompt := match bpm with
                  | Some b => prompt +:+ ", bpm : " +:+ pretty b
                  | None => prompt
                  end in
    duration ← lift (int_truediv (Z.of_nat (length music)) sr);
    emit (SeparateVocals music sr);;
    let '(vocal, background) := demucs C cfg music sr in
    audio_write "input_vocal" [vocal] (sample_rate cfg)
      (normalization_strategy a) false;;
    let req := request_of a prompt music sr duration seed in
    let '(wav, tokens) := generate_with_chroma C cfg req in
    emit (Generate req wav);;
    wav ← (if multi_band_diffusion a
           then let wav := tokens_to_wav C tokens in
                emit (MbdDecode tokens wav);; mret wav
           else mret wav);
    wav ← lift (normalize_unguarded (sanitize wav));
    audio_write "background" [wav] (sample_rate cfg)
      (normalization_strategy a) false;;
    let wav_length := length wav in
    output ← lift (mix wav vocal wav_length);
    audio_write "out" output (sample_rate cfg) (normalization_strategy a) true.

  (** Lines 405-433: the returned paths. *)
Definition deliver (a : inputs) : M (list string) :=
    path ← export_main (output_format a);
    if return_instrumental a then
      inst_out_path ← export_instrumental (output_format a);
      mret [path; inst_out_path]
    else mret [path].

Definition predict (a : inputs) : M (list string) :=
    '(prompt, music_input, cfg) ← configure a;
    produce a prompt music_input cfg;;
    deliver a.
End Pipeline.

(** The two masked assignments of [sanitize], sample by sample. *)
Definition repair (x : F32.t) : F32.t :=
  if F32.is_inf x then F32.one else if F32.is_nan x then F32.zero else x.

(** The fallback in the words of the input's description:
    [1.1/(bpm/60)] with a tempo, 0.75 without. *)
Definition documented_fallback (bpm : option Z) : result float :=
  match bpm with
  | Some b => beats ← int_truediv b 60; float_truediv 1.1%float beats
  | None => Ok 0.75%float
  end.

(** The same inputs with another [beat_sync_threshold]. *)
Definition with_threshold (t : option float) (a : inputs) : inputs :=
  {| model_version := model_version a;
     prompt := prompt a;
     music_input := music_input a;
     multi_band_diffusion := multi_band_diffusion a;
     normalization_strategy := normalization_strategy a;
     beat_sync_threshold := t;
     large_chord_voca := large_chord_voca a;
     chroma_coefficient := chroma_coefficient a;
     top_k := top_k a;
     top_p := top_p a;
     temperature := temperature a;
     classifier_free_guidance := classifier_free_guidance a;
     output_format := output_format a;
     return_instrumental := return_instrumental a;
     seed := seed a |}.

(** The six seeding calls of [set_all_seeds], in order. *)
Definition seeding (s : Z) : list event :=
  [RandomSeed s; PythonHashSeed s; NumpySeed s; TorchManualSeed s;
   CudaManualSeed s; CudnnDeterministic].

(** The events that run a network. *)
Definition is_model_call (e : event) : bool :=
  match e with
  | Analyze _ | SeparateVocals _ _ | Generate _ _ | MbdDecode _ _ => true
  | _ => false
  end.

Definition weights_path (a : inputs) : string :=
  "/src/musicgen-" +:+ model_version a +:+ ".th".

(** A computation appends to the log, and appends only events in [P]. *)
Definition emits {A : Type} (P : event -> Prop) (m : M A) : Prop :=
  forall w, exists evs, log (m w).2 = log w ++ evs /\ Forall P evs.

Definition quiet (e : event) : Prop := is_model_call e = false.
Definition any_event (e : event) : Prop := True.

(** ** Concrete runs

    A small studio: a four-sample clip at the engine's rate, a separator
    and a generator with fixed answers, and an [ffmpeg] that transcodes
    what it is given. *)

Definition good_ffmpeg (src : option file) : Z * option file :=
  match src with
  | Some f => (0, Some (Transcoded f))
  | None => (1, None)
  end.

Definition failing_ffmpeg (src : option file) : Z * option file := (1, None).

Definition quarter : F32.t := Eval vm_compute in F32.scaled 1 (-2).
Definition neg_half : F32.t := Eval vm_compute in F32.scaled (-1) (-1).

Definition clip : tensor := [F32.one; F32.half; F32.half; F32.one].
Definition vocal_stem : tensor := [F32.half; quarter; neg_half; F32.one].
Definition background_stem : tensor := [F32.half; quarter; F32.one; F32.zero].

Definition studio (n_q : Z) (generated : tensor)
    (ffmpeg : option file -> Z * option file) : collaborators := {|
  pget := fun _ _ => 0;
  checkpoint_cfg := fun _ => ModelCfg n_q 32000;
  torch_seed := 1234567890123456789;
  analyze_bpm := fun _ => Some 120;
  torchaudio_load := fun _ => (clip, 32000);
  demucs := fun _ _ _ => (vocal_stem, background_stem);
  generate_with_chroma := fun _ _ => (generated, [1; 2; 3]);
  tokens_to_wav := fun _ => generated;
  ffmpeg := ffmpeg
|}.

Definition request (mbd : bool) (format : string) (instrumental : bool) : inputs := {|
  model_version := "chord";
  prompt := Some "uplifting synth pop";
  music_input := Some "clip.wav";
  multi_band_diffusion := mbd;
  normalization_strategy := "loudness";
  beat_sync_threshold := None;
  large_chord_voca := true;
  chroma_coefficient := 1%float;
  top_k := 250;
  top_p := 0%float;
  temperature := 1%float;
  classifier_free_guidance := 3;
  output_format := format;
  return_instrumental := instrumental;
  seed := Some 42
|}.

(** Three generated samples for a four-sample clip. *)
Definition short_wave : tensor := [F32.one; neg_half; quarter].
Definition nan_wave : tensor := [F32.nan; F32.nan; F32.nan].
Definition silent_wave : tensor := [F32.zero; F32.zero; F32.zero].

(** ** Calls that do not return *)

(** A computation that raises from every world. *)
Definition fails {A : Type} (m : M A) : Prop :=
  forall w, exists e, (m w).1 = Raise e.

(** The two seeding calls that come before [np.random.seed]. *)
Definition seeding_before_numpy (s : Z) : list event :=
  [RandomSeed s; PythonHashSeed s].

(** The encoding of the final buffer, lines 398-404. *)
Definition is_out_write (e : event) : bool :=
  match e with
  | AudioWrite stem _ _ _ _ => String.eqb stem "out"
  | _ => false
  end.

(** The steps of lines 398-431: the encoding of the final buffer, the
    transcoding, the removal of a file. *)
Definition is_delivery (e : event) : bool :=
  match e with
  | Ffmpeg _ _ _ | Remove _ => true
  | _ => is_out_write e
  end.

(** The events a call gets to: the removal of a scratch directory, the
    download and the loading of the weights, the switch of the chord
    vocabulary, the seeding calls, the four networks, and the encoding of
    a buffer as [input_vocal] or as [background], without the loudness
    compressor. *)
Definition reached (e : event) : bool :=
  match e with
  | Rmtree _ | Pget _ _ | LoadCkpt _ | SmallChordVocab
  | RandomSeed _ | PythonHashSeed _ | NumpySeed _ | TorchManualSeed _
  | CudaManualSeed _ | CudnnDeterministic
  | Analyze _ | TorchaudioLoad _ | SeparateVocals _ _ | Generate _ _
  | MbdDecode _ _ => true
  | AudioWrite stem _ _ _ false =>
      String.eqb stem "input_vocal" || String.eqb stem "background"
  | _ => false
  end.

Definition is_reached (e : event) : Prop := reached e = true.

Definition not_out_write (e : event) : Prop := is_out_write e = false.
Definition not_delivery (e : event) : Prop := is_delivery e = false.

(** The same collaborators with another [ffmpeg]. *)
Definition with_ffmpeg (f : option file -> Z * option file)
    (C : collaborators) : collaborators :=
  {| pget := pget C;
     checkpoint_cfg := checkpoint_cfg C;
     torch_seed := torch_seed C;
     analyze_bpm := analyze_bpm C;
     torchaudio_load := torchaudio_load C;
     demucs := demucs C;
     generate_with_chroma := generate_with_chroma C;
     tokens_to_wav := tokens_to_wav C;
     ffmpeg := f |}.

(** ** Further observations on [predict] *)

(** The same inputs with another [seed]. *)
Definition with_seed (s : option Z) (a : inputs) : inputs :=
  {| model_version := model_version a;
     prompt := prompt a;
     music_input := music_input a;
     multi_band_diffusion := multi_band_diffusion a;
     normalization_strategy := normalization_strategy a;
     beat_sync_threshold := beat_sync_threshold a;
     large_chord_voca := large_chord_voca a;
     chroma_coefficient := chroma_coefficient a;
     top_k := top_k a;
     top_p := top_p a;
     temperature := temperature a;
     classifier_free_guidance := classifier_free_guidance a;
     output_format := output_format a;
     return_instrumental := return_instrumental a;
     seed := s |}.

(** The test of line 267, negated: the caller's threshold is kept. *)
Definition supplied (t : option float) : bool :=
  negb (not_float t
        || match t with
           | Some v => PrimFloat.eqb v (-1)%float
           | None => false
           end).

(** The same collaborators, with the background stem of the separator
    passed through [f]. *)
Definition with_background (f : tensor -> tensor) (C : collaborators)
    : collaborators :=
  {| pget := pget C;
     checkpoint_cfg := checkpoint_cfg C;
     torch_seed := torch_seed C;
     analyze_bpm := analyze_bpm C;
     torchaudio_load := torchaudio_load C;
     demucs := fun cfg music sr =>
                 ((demucs C cfg music sr).1, f (demucs C cfg music sr).2);
     generate_with_chroma := generate_with_chroma C;
     tokens_to_wav := tokens_to_wav C;
     ffmpeg := ffmpeg C |}.


(** ** Observations on the working directory *)

(** A computation leaves every path outside [S] as it found it. *)
Definition touches {A : Type} (S : string -> Prop) (m : M A) : Prop :=
  forall w p, ~ S p -> fs (m w).2 !! p = fs w !! p.

(** The files the code of a call writes or removes by name. *)
Definition work_files : list string :=
  map resolve ["input_vocal.wav"; "background.wav"; "out.wav"; "out.mp3";
               "background_synced.wav"; "background_synced.mp3"].

(** Those of them that a call gets to. *)
Definition written_files : list string :=
  map resolve ["input_vocal.wav"; "background.wav"].

Definition may_write (a : inputs) (p : string) : bool :=
  below (resolve "demix") p || below (resolve "spec") p
  || String.eqb p (weights_path a) || existsb (String.eqb p) written_files.

Definition writable (a : inputs) (p : string) : Prop :=
  may_write a p = true.

(** The paths a call may change: the two scratch directories with what
    lies below them, the weights of the requested model, the work files. *)
Definition may_change (a : inputs) (p : string) : bool :=
  below (resolve "demix") p || below (resolve "spec") p
  || String.eqb p (weights_path a) || existsb (String.eqb p) work_files.

(** What lines 201-206 leave of the working directory: a scratch
    directory that exists is removed with everything below it. *)
Definition sweep (dir : string) (files : gmap string file)
    : gmap string file :=
  match files !! resolve dir with
  | Some Directory =>
      filter (fun kv => below (resolve dir) kv.1 = false) files
  | _ => files
  end.

Definition sweep_log (dir : string) (files : gmap string file)
    : list event :=
  match files !! resolve dir with
  | Some Directory => [Rmtree dir]
  | _ => []
  end.

Definition weights_url (model_version : string) : string :=
  "https://weights.replicate.delivery/default/musicgen-chord/musicgen-"
  +:+ model_version +:+ ".th".

Definition is_download (e : event) : bool :=
  match e with Pget _ _ => true | _ => false end.

Definition is_rmtree (e : event) : bool :=
  match e with Rmtree _ => true | _ => false end.

(** [predict] from line 216 on, once the inputs are validated and the
    model is loaded. *)
Definition after_loading (C : collaborators) (a : inputs)
    (prompt music_input : string) (cfg : model_cfg) : M (list string) :=
  (if large_chord_voca a then mret tt else emit SmallChordVocab);;
  (if multi_band_diffusion a && (n_q cfg =? 8)
   then raise (ValueError "Multi-band Diffusion only works with non-stereo models.")
   else mret tt);;
  produce C a prompt music_input cfg;;
  deliver C a.

Definition no_download (e : event) : Prop := is_download e = false.

Definition changeable (a : inputs) (p : string) : Prop :=
  may_change a p = true.

Definition is_work_file (p : string) : Prop :=
  existsb (String.eqb p) work_files = true.

(** A studio whose analysis reports the tempo [bpm]. *)
Definition tempo_studio (bpm : option Z) : collaborators := {|
  pget := fun _ _ => 0;
  checkpoint_cfg := fun _ => ModelCfg 4 32000;
  torch_seed := 7;
  analyze_bpm := fun _ => bpm;
  torchaudio_load := fun _ => (clip, 32000);
  demucs := fun _ _ _ => (vocal_stem, background_stem);
  generate_with_chroma := fun _ _ => (short_wave, [1; 2; 3]);
  tokens_to_wav := fun _ => short_wave;
  ffmpeg := good_ffmpeg
|}.

(** * The checkpoint configuration: [_delete_param] and [load_ckpt]

    [load_ckpt] turns the configuration stored in the checkpoint into an
    OmegaConf tree, sets the device and the precision on it, and removes
    four parameters with [_delete_param]; the result is attached to the
    language model as [lm.cfg]. *)

(** Exceptions of the functions around [predict]. *)
Inductive raised : Type :=
| Exn (e : exn)
| TypeError
| AttributeError
| AssertionError
| IndexError
| OverflowError.

Inductive attempt (A : Type) : Type :=
| Returns (a : A)
| Raises (e : raised).
Arguments Returns {A} a.
Arguments Raises {A} e.

#[export] Instance attempt_ret : MRet attempt := @Returns.
#[export] Instance attempt_bind : MBind attempt := fun A B k r =>
  match r with
  | Returns a => k a
  | Raises e => Raises e
  end.

(** A scalar that is not a string: [in] is not defined on it. *)
Inductive scalar : Type :=
| PyNone
| PyBool (b : bool)
| PyInt (z : Z)
| PyFloat (f : float).

#[local] Set Warnings "-register-all".
(** An OmegaConf tree as [cfg[key]] shows it: a dictionary node with its
    own struct flag (unset, on or off), a string, or another scalar.
    Lists, missing-value markers, interpolations, typed and read-only
    nodes are outside the model. *)
Inductive config : Type :=
| DictConfig (struct : option bool) (content : gmap string config)
| StrValue (s : string)
| Value (v : scalar).
#[local] Set Warnings "register-all".

(** [s.split(sep)] for a one-character separator: the pieces between
    the occurrences of [sep], at least one piece. *)
Fixpoint str_split (sep : ascii) (s : string) : list string :=
  match s with
  | EmptyString => [EmptyString]
  | String c s' =>
      if Ascii.eqb c sep then EmptyString :: str_split sep s'
      else match str_split sep s' with
           | piece :: pieces => String c piece :: pieces
           | [] => [String c EmptyString]
           end
  end.

(** [needle in hay] on two strings. *)
Fixpoint is_substring (needle hay : string) : bool :=
  String.prefix needle hay
  || match hay with
     | EmptyString => false
     | String _ hay' => is_substring needle hay'
     end.

(** Lines 46-54 on the parts of the name.  The source walks down with
    [cfg = cfg[part]] and changes the node it reaches in place; here the
    tree is rebuilt along the path walked.

    - In the loop (a part that is not the last): a dictionary without
      the key, or a string that does not contain the part, ends the call
      with nothing changed; a string that contains it cannot be indexed
      by it, and [in] on another scalar raises.
    - After the loop: [OmegaConf.set_struct] on a value that is not a
      node raises; on a dictionary the key is deleted when present and
      the struct flag of the node is left on. *)
Fixpoint delete_parts (parts : list string) (cfg : config) : attempt config :=
  match parts with
  | [] => Raises IndexError
  | part :: rest =>
      match rest with
      | [] =>
          match cfg with
          | DictConfig _ content =>
              Returns (DictConfig (Some true) (delete part content))
          | _ => Raises AttributeError
          end
      | _ :: _ =>
          match cfg with
          | DictConfig flag content =>
              match content !! part with
              | Some sub =>
                  sub' ← delete_parts rest sub;
                  Returns (DictConfig flag (<[part := sub']> content))
              | None => Returns cfg
              end
          | StrValue s =>
              if is_substring part s then Raises TypeError else Returns cfg
          | Value _ => Raises TypeError
          end
      end
  end.

(** Lines 44-54. *)
Definition _delete_param (cfg : config) (full_name : string) : attempt config :=
  delete_parts (str_split "." full_name) cfg.

(** [cfg.key = v] on the root of a tree: a dictionary in struct mode
    accepts no new key. *)
Definition setattr (cfg : config) (key : string) (v : config) : attempt config :=
  match cfg with
  | DictConfig flag content =>
      if bool_decide (flag = Some true) && bool_decide (content !! key = None)
      then Raises AttributeError
      else Returns (DictConfig flag (<[key := v]> content))
  | _ => Raises AttributeError
  end.

(** [cfg.key == s] *)
Definition attr_is (cfg : config) (key s : string) : bool :=
  match cfg with
  | DictConfig _ content =>
      match content !! key with
      | Some (StrValue s') => String.eqb s' s
      | _ => false
      end
  | _ => false
  end.

(** Lines 61-70 of [load_ckpt]: [cfg] is the tree made of the stored
    configuration, [device] is [str(device)]. *)
Definition load_ckpt_cfg (cfg : config) (device : string) : attempt config :=
  cfg ← setattr cfg "device" (StrValue device);
  cfg ← (if attr_is cfg "device" "cpu"
         then setattr cfg "dtype" (StrValue "float32")
         else setattr cfg "dtype" (StrValue "float16"));
  cfg ← _delete_param cfg "conditioners.self_wav.chroma_chord.cache_path";
  cfg ← _delete_param cfg "conditioners.self_wav.chroma_stem.cache_path";
  cfg ← _delete_param cfg "conditioners.args.merge_text_conditions_p";
  _delete_param cfg "conditioners.args.drop_desc_p".

(** The value at a path of keys, through dictionaries only. *)
Fixpoint select (path : list string) (cfg : config) : option config :=
  match path with
  | [] => Some cfg
  | key :: path' =>
      match cfg with
      | DictConfig _ content => content !! key ≫= select path'
      | _ => None
      end
  end.

Definition is_dict (cfg : config) : bool :=
  match cfg with DictConfig _ _ => true | _ => false end.

(** A stored configuration with the four parameters and two more. *)
Definition stored_cfg : config :=
  DictConfig None
    {[ "device" := StrValue "cuda";
       "compression_model_checkpoint" := StrValue "//pretrained/facebook/encodec_32khz";
       "conditioners" :=
         DictConfig None
           {[ "args" :=
                DictConfig None
                  {[ "merge_text_conditions_p" := Value (PyFloat 0.25);
                     "drop_desc_p" := Value (PyFloat 0.5) ]};
              "self_wav" :=
                DictConfig None
                  {[ "chroma_chord" :=
                       DictConfig None
                         {[ "cache_path" := Value PyNone;
                            "n_chroma" := Value (PyInt 12) ]} ]} ]} ]}.

(** * [separate_vocals] *)

(** [l.index(x)] *)
Fixpoint list_index (x : string) (l : list string) : option nat :=
  match l with
  | [] => None
  | y :: l' => if String.eqb y x then Some 0%nat else S <$> list_index x l'
  end.

Definition from_result {A : Type} (r : result A) : attempt A :=
  match r with
  | Ok a => Returns a
  | Raise e => Raises (Exn e)
  end.

Section SeparateVocals.
(** A batch of audio, [batch, channels, time]; [add] is [+] on two of one
    shape. *)
Variable T : Type.
Variable add : T -> T -> T.
(** [demucs.audio.convert_audio(wav, from_samplerate, to_samplerate,
    channels)], on audio it can convert. *)
Variable convert_audio : T -> Z -> Z -> Z -> T.

(** The separator held by the conditioner: its rate, its channels, the
    names of its sources, and [apply_model], given as the list of the
    stems [stems[:, i]]. *)
Record separator : Type := Separator {
  samplerate : Z;
  audio_channels : Z;
  sources : list string;
  apply_model : T -> list T
}.

(** [stems[:, sources.index(name)]] *)
Definition stem (d : separator) (stems : list T) (name : string) : attempt T :=
  match list_index name (sources d) with
  | None => Raises (Exn (ValueError ("'" +:+ name +:+ "' is not in list")))
  | Some i =>
      match stems !! i with
      | Some t => Returns t
      | None => Raises IndexError
      end
  end.

(** Lines 478-488; [model_sample_rate] is [self.model.sample_rate]. *)
Definition separate_vocals (d : separator) (model_sample_rate : Z)
    (music_input : T) (sr : Z) : attempt (T * T) :=
  let wav := convert_audio music_input sr (samplerate d) (audio_channels d) in
  let stems := apply_model d wav in
  drums ← stem d stems "drums";
  other ← stem d stems "other";
  bass ← stem d stems "bass";
  let background := add (add drums other) bass in
  vocals ← stem d stems "vocals";
  let background :=
    convert_audio background (samplerate d) model_sample_rate 1 in
  let vocals := convert_audio vocals (samplerate d) model_sample_rate 1 in
  Returns (vocals, background).

(** The first stem listed under a name. *)
Fixpoint named (name : string) (l : list (string * T)) : option T :=
  match l with
  | [] => None
  | (key, t) :: l' => if String.eqb key name then Some t else named name l'
  end.
End SeparateVocals.

Arguments samplerate {T} _.
Arguments audio_channels {T} _.
Arguments sources {T} _.
Arguments apply_model {T} _ _.

(** * [_preprocess_audio] *)

(** A Python number: the duration is an [int] when given and a [float]
    when computed. *)
Inductive number : Type :=
| IntNum (z : Z)
| FloatNum (f : float).

(** [int(x)] on a [float]: truncation towards zero. *)
Definition int_of_float (x : float) : attempt Z :=
  match Prim2SF x with
  | S754_zero _ => Returns 0
  | S754_finite s m e =>
      let mag := if 0 <=? e then Z.pos m * 2 ^ e else Z.pos m / 2 ^ (- e) in
      Returns (if s then - mag else mag)
  | S754_infinity _ => Raises OverflowError
  | S754_nan => Raises (Exn (ValueError "cannot convert float NaN to integer"))
  end.

(** [a > b], [a * b], [int(a)] and [a == b] where one side is an [int];
    an [int] below 2^53 is compared with a [float] through its exact
    conversion. *)
Definition num_gt (a : number) (b : Z) : bool :=
  match a with
  | IntNum z => b <? z
  | FloatNum f => PrimFloat.ltb (float_of_int b) f
  end.
Definition int_times (a : Z) (b : number) : number :=
  match b with
  | IntNum z => IntNum (a * z)
  | FloatNum f => FloatNum (PrimFloat.mul (float_of_int a) f)
  end.
Definition int_of (a : number) : attempt Z :=
  match a with
  | IntNum z => Returns z
  | FloatNum f => int_of_float f
  end.
Definition int_eq (a : Z) (b : number) : bool :=
  match b with
  | IntNum z => a =? z
  | FloatNum f => PrimFloat.eqb (float_of_int a) f
  end.

(** [w[:, :stop]]: a negative [stop] counts from the end. *)
Definition slice_to (stop : Z) (w : tensor) : tensor :=
  if 0 <=? stop then firstn (Z.to_nat stop) w
  else firstn (length w - Z.to_nat (- stop)) w.

Section PreprocessAudio.
Variables Codes Scale : Type.
(** Lines 439-441: the clip at a path, resampled to the rate given and
    averaged over its channels, as the samples of its one row. *)
Variable load_mono : string -> Z -> attempt tensor.
(** Lines 457-463: [wav.cuda()], [unsqueeze(1)] and the encoder. *)
Variable encode : tensor -> attempt (Codes * option Scale).

(** Lines 435-467, with assertions checked; [sample_rate] is
    [model.sample_rate]. *)
Definition _preprocess_audio (audio_path : string) (sample_rate : Z)
    (duration : option Z) : attempt Codes :=
  wav ← load_mono audio_path sample_rate;
  duration ← match duration with
             | None =>
                 d ← from_result
                       (int_truediv (Z.of_nat (length wav)) sample_rate);
                 Returns (FloatNum d)
             | Some d => Returns (IntNum d)
             end;
  if num_gt duration 30
  then Raises (Exn (ValueError "Duration cannot be more than 30 seconds"))
  else
    end_sample ← int_of (int_times sample_rate duration);
    let wav := slice_to end_sample wav in
    if negb (int_eq (Z.of_nat (length wav)) (int_times sample_rate duration))
    then Raises AssertionError
    else
      '(codes, scale) ← encode wav;
      match scale with
      | None => Returns codes
      | Some _ => Raises AssertionError
      end.

(** What the call does with the clip once the checks pass. *)
Definition encoded (wav : tensor) : attempt Codes :=
  '(codes, scale) ← encode wav;
  match scale with
  | None => Returns codes
  | Some _ => Raises AssertionError
  end.
End PreprocessAudio.

(** Without a duration, at a sample rate [sr] and for a clip of [n]
    samples: the duration is not above 30, and either
    [sr * (n / sr)] is [n] again and truncates to it, or it is not and
    the length left by the cut differs from it. *)
Definition round_trip (sr n : Z) : bool :=
  PrimFloat.eqb (float_of_int n)
    (PrimFloat.mul (float_of_int sr)
       (PrimFloat.div (float_of_int n) (float_of_int sr))).

Definition no_duration_check (sr n : Z) : bool :=
  let d := PrimFloat.div (float_of_int n) (float_of_int sr) in
  let p := PrimFloat.mul (float_of_int sr) d in
  negb (PrimFloat.ltb (float_of_int 30) d)
  && match int_of_float p with
     | Returns e =>
         if round_trip sr n then e =? n
         else (0 <=? e)
              && negb (PrimFloat.eqb (float_of_int (Z.min n e)) p)
     | Raises _ => false
     end.

Fixpoint checked_from (fuel : nat) (sr n : Z) : bool :=
  match fuel with
  | O => true
  | S fuel' => no_duration_check sr n && checked_from fuel' sr (n + 1)
  end.

(** * The predictor object: [setup], [_load_model], [estimate_beats] *)

Inductive attribute : Type :=
| Device (name : string)
| Mbd
| Model (cfg : model_cfg)
| BeatNetModel (sample_rate : Z).

(** The attributes of [self]. *)
Abbreviation predictor := (gmap string attribute).

(** Lines 80-84. *)
Definition setup (cuda_is_available : bool) (self : predictor) : predictor :=
  <["mbd" := Mbd]>
    (<["device" := Device (if cuda_is_available then "cuda" else "cpu")]> self).

(** Line 215: [self.model = load_ckpt(...)], the one attribute [predict]
    assigns. *)
Definition assign_model (cfg : model_cfg) (self : predictor) : predictor :=
  <["model" := Model cfg]> self.

Section PredictorMethods.
Variables Compression LM Beats Audio : Type.
(** [load_compression_model(model_id, device=..., cache_dir=...)] and
    [load_lm_model] likewise; the device is whatever object is passed. *)
Variable load_compression_model : string -> attribute -> string -> Compression.
Variable load_lm_model : string -> attribute -> string -> LM.
Variable resample : Audio -> Z -> Z -> Audio.
Variable process : Audio -> Beats.

(** Lines 86-103: the model id, then what it was built from. *)
Definition _load_model (self : predictor) (model_path model_id : string)
    (device : option attribute) : attempt (string * Compression * LM) :=
  device ← match device with
           | Some d => Returns d
           | None =>
               match self !! "device" with
               | Some d => Returns d
               | None => Raises AttributeError
               end
           end;
  let compression_model := load_compression_model model_id device model_path in
  let lm := load_lm_model model_id device model_path in
  Returns (model_id, compression_model, lm).

(** Lines 469-476: the arguments of [librosa.resample] are evaluated
    first, [self.beatnet.sample_rate] among them; an attribute that is
    not a beat tracker has no [process]. *)
Definition estimate_beats (self : predictor) (wav : Audio) (sample_rate : Z)
    : attempt Beats :=
  match self !! "beatnet" with
  | Some (BeatNetModel rate) => Returns (process (resample wav sample_rate rate))
  | Some _ => Raises AttributeError
  | None => Raises AttributeError
  end.
End PredictorMethods.

(** The calls the interface makes on a predictor. *)
Inductive method_call : Type :=
| CallSetup (cuda_is_available : bool)
| CallPredict (loaded : option model_cfg).

Definition after_call (self : predictor) (c : method_call) : predictor :=
  match c with
  | CallSetup cuda => setup cuda self
  | CallPredict (Some cfg) => assign_model cfg self
  | CallPredict None => self
  end.

(** Separators over one-number stems, for concrete runs. *)
Definition four_stems : separator Z :=
  Separator Z 44100 2 ["drums"; "bass"; "other"; "vocals"]
    (fun wav => [wav + 1; wav + 2; wav + 3; wav + 4]).

Definition four_stems_swapped : separator Z :=
  Separator Z 44100 2 ["bass"; "drums"; "other"; "vocals"]
    (fun wav => [wav + 2; wav + 1; wav + 3; wav + 4]).

Definition no_vocals : separator Z :=
  Separator Z 44100 2 ["drums"; "bass"; "other"]
    (fun wav => [wav + 1; wav + 2; wav + 3]).

Definition keep_audio (wav : Z) (from_rate to_rate channels : Z) : Z := wav.

(** * Properties *)

(** ** Tensors and the post-processing steps *)

Section PostProcessing.
Implicit Types (w wav vocal : tensor) (x amp : F32.t) (n : nat).

Lemma masked_fill_length w mask x :
    length (Torch.masked_fill w mask x) = length w.
  Proof.
    revert mask; induction w as [|y w IH]; intros [|b mask]; simpl; auto.
  Qed.

Lemma sanitize_map w : sanitize w = map repair w.
  Proof.
    unfold sanitize, Torch.isnan, Torch.isinf.
    induction w as [|x w IH]; simpl; [reflexivity|].
    rewrite IH. destruct x; reflexivity.
  Qed.

Lemma sanitize_length w : length (sanitize w) = length w.
  Proof. rewrite sanitize_map. apply length_map. Qed.

Lemma repair_finite x : F32.is_finite (repair x) = true.
  Proof. destruct x; reflexivity. Qed.

Lemma lookup_map {A B : Type} (f : A -> B) (l : list A) (i : nat) :
    map f l !! i = f <$> l !! i.
  Proof.
    revert i; induction l as [|a l IH]; intros [|i]; simpl; auto.
  Qed.

  (** The sanitation pass itself does what it says: NaN becomes 0.0, both
      infinities become 1.0, finite samples stay, nothing non-finite is
      left in the tensor it is applied to. *)
Lemma sanitize_spec w (i : nat) x :
    sanitize w !! i = Some x ->
    F32.is_finite x = true /\
    exists y, w !! i = Some y /\
      (F32.is_nan y = true -> x = F32.zero) /\
      (F32.is_inf y = true -> x = F32.one) /\
      (F32.is_finite y = true -> x = y).
  Proof.
    rewrite sanitize_map, lookup_map.
    destruct (w !! i) as [y|]; simpl; [|discriminate].
    intros [= <-]. split; [apply repair_finite|].
    exists y. split; [reflexivity|].
    destruct y; simpl; repeat split; intros; first [discriminate | reflexivity].
  Qed.

Lemma attenuate_length w amp n :
    length (attenuate w amp n) = Nat.min n (length w).
  Proof.
    unfold attenuate, Torch.scalar_mul, Torch.mul_scalar, Torch.take, Torch.div_scalar.
    rewrite !length_map, length_firstn, length_map. reflexivity.
  Qed.

Lemma assign_row_length n (src row : tensor) :
    Torch.assign_row n src = Ok row -> length row = n.
  Proof.
    unfold Torch.assign_row.
    destruct (Nat.eqb_spec (length src) n) as [E|E].
    - intros [= <-]. exact E.
    - destruct src as [|x [|y src]]; try discriminate.
      intros [= <-]. apply repeat_length.
  Qed.

End PostProcessing.






(** ** Line 383 *)

Lemma zeros_int_size (n : nat) (shape : list nat) :
  Torch.zeros (Torch.Int n) (Torch.Size shape)
  = Raise (TypeErr "zeros() received an invalid combination of arguments").
Proof. reflexivity. Qed.

Lemma mix_raises (wav vocal : tensor) (n : nat) :
  exists e, mix wav vocal n = Raise e.
Proof. destruct wav, vocal; eexists; reflexivity. Qed.



(** ** What a run appends to the log *)

Section Logs.
Context {A B : Type} (P : event -> Prop).

Lemma emits_ret (a : A) : emits P (mret a).
  Proof. intros w; exists []; simpl. rewrite app_nil_r; auto. Qed.

Lemma emits_raise (e : exn) : emits P (@raise A e).
  Proof. intros w; exists []; simpl. rewrite app_nil_r; auto. Qed.

Lemma emits_lift (r : result A) : emits P (lift r).
  Proof. intros w; exists []; simpl. rewrite app_nil_r; auto. Qed.

Lemma emits_get_fs : emits P get_fs.
  Proof. intros w; exists []; simpl. rewrite app_nil_r; auto. Qed.

Lemma emits_put_fs files : emits P (put_fs files).
  Proof. intros w; exists []; simpl. rewrite app_nil_r; auto. Qed.

Lemma emits_emit e : P e -> emits P (emit e).
  Proof. intros He w; exists [e]; simpl; auto. Qed.

Lemma emits_bind (m : M A) (k : A -> M B) :
    emits P m -> (forall a, emits P (k a)) -> emits P (m ≫= k).
  Proof.
    intros Hm Hk w. unfold mbind, M_bind.
    destruct (Hm w) as (evs1 & E1 & F1).
    destruct (m w) as [[a|e] w1]; simpl in *.
    - destruct (Hk a w1) as (evs2 & E2 & F2).
      exists (evs1 ++ evs2). rewrite E2, E1, app_assoc.
      split; [reflexivity | apply Forall_app; auto].
    - exists evs1; auto.
  Qed.

Lemma emits_weaken (Q : event -> Prop) (m : M A) :
    (forall e, P e -> Q e) -> emits P m -> emits Q m.
  Proof.
    intros HPQ Hm w. destruct (Hm w) as (evs & E & F).
    exists evs; split; [exact E|]. eapply Forall_impl; eauto.
  Qed.
End Logs.

(** ** A computation that raises *)

Section Failing.
Context {A B : Type}.

Lemma fails_bind_l (m : M A) (k : A -> M B) : fails m -> fails (m ≫= k).
Proof.
  intros Hm w. destruct (Hm w) as [e He]. exists e.
  unfold mbind, M_bind. destruct (m w) as [[a|e'] w1]; simpl in *.
  - discriminate He.
  - injection He as ->. reflexivity.
Qed.

Lemma fails_bind_r (m : M A) (k : A -> M B) :
  (forall a, fails (k a)) -> fails (m ≫= k).
Proof.
  intros Hk w. unfold mbind, M_bind.
  destruct (m w) as [[a|e] w1]; [apply Hk | eauto].
Qed.

(** What follows a computation that raises is not run. *)
Lemma bind_fails (m : M A) (k : A -> M B) w :
  fails m ->
  exists e, m w = (Raise e, (m w).2) /\ (m ≫= k) w = (Raise e, (m w).2).
Proof.
  intros Hm. destruct (Hm w) as [e He]. exists e.
  unfold mbind, M_bind. destruct (m w) as [[a|e'] w1]; simpl in *.
  - discriminate He.
  - injection He as ->. auto.
Qed.

Lemma emits_bind_fails (P : event -> Prop) (m : M A) (k : A -> M B) :
  emits P m -> fails m -> emits P (m ≫= k).
Proof.
  intros Hm Hf w. destruct (bind_fails m k w Hf) as (e & _ & ->). apply Hm.
Qed.

Lemma touches_bind_fails (S : string -> Prop) (m : M A) (k : A -> M B) :
  touches S m -> fails m -> touches S (m ≫= k).
Proof.
  intros Hm Hf w p Hp. destruct (bind_fails m k w Hf) as (e & _ & ->).
  apply Hm, Hp.
Qed.
End Failing.

Lemma fails_lift_mix wav vocal n : fails (lift (mix wav vocal n)).
Proof.
  intros w. destruct (mix_raises wav vocal n) as [e H]. exists e.
  unfold lift. simpl. exact H.
Qed.

Lemma fails_produce C a p m cfg : fails (produce C a p m cfg).
Proof.
  unfold produce.
  repeat first
    [ progress cbv beta zeta
    | apply fails_bind_l; apply fails_lift_mix
    | match goal with
      | |- fails (match ?x with _ => _ end) => destruct x
      end
    | apply fails_bind_r; intros ].
Qed.

(** Line 383 ends the mixing: nothing after it is logged. *)
Lemma emits_mix_then {B : Type} (P : event -> Prop) wav vocal n
    (k : list tensor -> M B) :
  emits P (lift (mix wav vocal n) ≫= k).
Proof.
  apply emits_bind_fails; [|apply fails_lift_mix].
  intros w; exists []; simpl. rewrite app_nil_r; auto.
Qed.

Lemma touches_mix_then {B : Type} (S : string -> Prop) wav vocal n
    (k : list tensor -> M B) :
  touches S (lift (mix wav vocal n) ≫= k).
Proof.
  apply touches_bind_fails; [|apply fails_lift_mix].
  intros w p _; reflexivity.
Qed.

Create HintDb emits.

Ltac emits_step :=
  first
    [ solve [auto with emits]
    | progress cbv beta zeta
    | apply emits_ret | apply emits_raise | apply emits_lift
    | apply emits_get_fs | apply emits_put_fs
    | apply emits_emit;
      first [ reflexivity | exact I
            | match goal with
              | H : forall e, quiet e -> _ |- _ => apply H; reflexivity
              end ]
    | match goal with
      | |- emits _ (match ?x with _ => _ end) => destruct x
      end
    | apply emits_mix_then
    | apply emits_bind; [|intros] ].
Ltac emits_run := repeat emits_step.

Section StageLogs.
Variable C : collaborators.
Variable P : event -> Prop.
Hypothesis P_quiet : forall e, quiet e -> P e.

Lemma emits_path_exists p : emits P (path_exists p).
  Proof. unfold path_exists. emits_run. Qed.
Lemma emits_isfile p : emits P (isfile p).
  Proof. unfold isfile. emits_run. Qed.
Lemma emits_isdir p : emits P (isdir p).
  Proof. unfold isdir. emits_run. Qed.
Lemma emits_write_file p f : emits P (write_file p f).
  Proof. unfold write_file. emits_run. Qed.
Lemma emits_os_remove p : emits P (os_remove p).
  Proof.
    unfold os_remove. emits_run.
  Qed.
Lemma emits_rmtree p : emits P (rmtree p).
  Proof.
    unfold rmtree. emits_run.
  Qed.

#[local] Hint Resolve emits_path_exists emits_isfile emits_isdir
    emits_write_file emits_os_remove emits_rmtree : emits.

Lemma emits_check_call_pget url dest : emits P (check_call_pget C url dest).
  Proof. unfold check_call_pget. emits_run. Qed.

Lemma emits_call_ffmpeg src dst : emits P (call_ffmpeg C src dst).
  Proof. unfold call_ffmpeg. emits_run. Qed.

Lemma emits_load_ckpt path : emits P (load_ckpt C path).
  Proof. unfold load_ckpt. emits_run. Qed.

#[local] Hint Resolve emits_check_call_pget emits_call_ffmpeg
    emits_load_ckpt : emits.

Lemma emits_load_model v : emits P (load_model C v).
  Proof. unfold load_model. emits_run. Qed.

Lemma emits_export_main fmt : emits P (export_main C fmt).
  Proof. unfold export_main. emits_run. Qed.

Lemma emits_export_instrumental fmt : emits P (export_instrumental C fmt).
  Proof. unfold export_instrumental. emits_run. Qed.

#[local] Hint Resolve emits_load_model emits_export_main
    emits_export_instrumental : emits.

Lemma emits_configure a : emits P (configure C a).
  Proof. unfold configure. emits_run. Qed.

Lemma emits_deliver a : emits P (deliver C a).
  Proof. unfold deliver. emits_run. Qed.

Lemma emits_audio_write stem channels rate strategy compressor :
    emits P (audio_write stem channels rate strategy compressor).
  Proof. unfold audio_write. emits_run. Qed.
End StageLogs.

Lemma emits_set_all_seeds s : emits any_event (set_all_seeds s).
Proof. unfold set_all_seeds, np_random_seed. emits_run. Qed.

Lemma emits_produce C a prompt music_input cfg :
  emits any_event (produce C a prompt music_input cfg).
Proof.
  assert (Hq : forall e, quiet e -> any_event e) by (intros; exact I).
  pose proof (emits_audio_write any_event Hq).
  pose proof emits_set_all_seeds.
  unfold produce. emits_run.
Qed.

(** ** [set_all_seeds] *)

Lemma seed_accepted (s : Z) :
  (0 <=? s) && (s <=? 2 ^ 32 - 1) = true <-> 0 <= s < 2 ^ 32.
Proof. rewrite andb_true_iff, !Z.leb_le. lia. Qed.

(** [set_all_seeds], exactly: the six seeding calls for a seed that numpy
    accepts, the first two and a [ValueError] for any other. *)
Lemma set_all_seeds_run s w :
  set_all_seeds s w
  = if (0 <=? s) && (s <=? 2 ^ 32 - 1)
    then (Ok tt, World (fs w) (log w ++ seeding s))
    else (Raise (ValueError "Seed must be between 0 and 2**32 - 1"),
          World (fs w) (log w ++ seeding_before_numpy s)).
Proof.
  unfold set_all_seeds, np_random_seed, emit, raise, mbind, M_bind.
  destruct ((0 <=? s) && (s <=? 2 ^ 32 - 1)); cbn [fs log];
    rewrite <- ?app_assoc; reflexivity.
Qed.

Lemma set_all_seeds_accepted s w :
  0 <= s < 2 ^ 32 ->
  set_all_seeds s w = (Ok tt, World (fs w) (log w ++ seeding s)).
Proof.
  intros H. apply seed_accepted in H. rewrite set_all_seeds_run, H.
  reflexivity.
Qed.


Lemma bind_run {A B : Type} (m : M A) (k : A -> M B) w :
  (m ≫= k) w
  = match m w with
    | (Ok a, w') => k a w'
    | (Raise e, w') => (Raise e, w')
    end.
Proof. reflexivity. Qed.



(** ** No call returns *)

(** Once the inputs are validated and the model is loaded, the call ends
    where [produce] ends: lines 405-433 are not reached. *)
Lemma predict_run C a w p m cfg w1 :
  configure C a w = (Ok (p, m, cfg), w1) ->
  exists e,
    produce C a p m cfg w1 = (Raise e, (produce C a p m cfg w1).2) /\
    predict C a w = (Raise e, (produce C a p m cfg w1).2).
Proof.
  intros Hc. unfold predict. rewrite bind_run, Hc.
  apply bind_fails, fails_produce.
Qed.

Lemma fails_predict C a : fails (predict C a).
Proof.
  intros w. destruct (configure C a w) as [[[[p m] cfg]|e] w1] eqn:Hc.
  - destruct (predict_run _ _ _ _ _ _ _ Hc) as (e & _ & ->). eauto.
  - unfold predict. rewrite bind_run, Hc. eauto.
Qed.

Lemma reached_configure C a : emits is_reached (configure C a).
Proof.
  unfold configure, load_model, check_call_pget, load_ckpt, isdir, isfile,
    rmtree, write_file.
  emits_run.
Qed.

Lemma reached_produce C a p m cfg : emits is_reached (produce C a p m cfg).
Proof.
  unfold produce, set_all_seeds, np_random_seed, audio_write, write_file.
  emits_run.
Qed.

(** Every event of every call is one of [reached]. *)
Lemma reached_predict C a : emits is_reached (predict C a).
Proof.
  unfold predict. apply emits_bind; [apply reached_configure|].
  intros [[p m] cfg].
  apply emits_bind_fails; [apply reached_produce | apply fails_produce].
Qed.

Lemma reached_not_delivery e : is_reached e -> not_delivery e.
Proof.
  unfold is_reached, not_delivery.
  destruct e as [| | | | | | | | | | | | |stem ch rate st [] | | | |];
    try discriminate; try reflexivity.
  cbn. intros H.
  apply orb_true_iff in H as [H|H]; apply String.eqb_eq in H; subst stem;
    reflexivity.
Qed.

Lemma reached_not_out_write e : is_reached e -> not_out_write e.
Proof.
  intros H. apply reached_not_delivery in H.
  unfold not_delivery, not_out_write in *.
  destruct e; try reflexivity; try discriminate H; exact H.
Qed.



(** ** The stages of a call, exactly *)

Lemma predict_split C a w p m :
  prompt a = Some p -> music_input a = Some m ->
  predict C a w
  = (load_model C (model_version a) ≫= after_loading C a p m) w.
Proof.
  intros Hp Hm.
  unfold predict, configure, after_loading, mbind, M_bind, mret, M_ret.
  rewrite Hp, Hm.
  destruct (load_model C (model_version a) w) as [[cfg|e] w1]; [|reflexivity].
  destruct (large_chord_voca a); simpl;
    destruct (multi_band_diffusion a && (n_q cfg =? 8)); reflexivity.
Qed.

(** Lines 201-215, exactly. *)
Lemma load_model_run C v w :
  let f1 := sweep "demix" (fs w) in
  let f2 := sweep "spec" f1 in
  let evs := sweep_log "demix" (fs w) ++ sweep_log "spec" f1 in
  let path := "/src/musicgen-" +:+ v +:+ ".th" in
  load_model C v w
  = match f2 !! path with
    | Some Directory | None =>
        if pget C (weights_url v) path =? 0
        then (Ok (checkpoint_cfg C path),
              World (<[path := Weights]> f2)
                (log w ++ evs ++ [Pget (weights_url v) path; LoadCkpt path]))
        else (Raise (CalledProcessError "pget"),
              World f2 (log w ++ evs ++ [Pget (weights_url v) path]))
    | Some _ =>
        (Ok (checkpoint_cfg C path),
         World f2 (log w ++ evs ++ [LoadCkpt path]))
    end.
Proof.
  destruct w as [files lg]. cbv zeta.
  unfold load_model, isdir, isfile, rmtree, check_call_pget, load_ckpt,
    write_file, emit, get_fs, put_fs, raise, mbind, M_bind, mret, M_ret,
    sweep, sweep_log, weights_url.
  cbn [fs log fst snd].
  change (resolve "demix") with "/src/demix".
  change (resolve "spec") with "/src/spec".
  change (resolve ("musicgen-" +:+ v +:+ ".th"))
    with ("/src/musicgen-" +:+ v +:+ ".th").
  change (resolve ("/src/musicgen-" +:+ v +:+ ".th"))
    with ("/src/musicgen-" +:+ v +:+ ".th").
  destruct (files !! "/src/demix") as [[]|]; cbn [fs log fst snd];
    match goal with
    | |- context [?g !! "/src/spec"] =>
        destruct (g !! "/src/spec") as [[]|]; cbn [fs log fst snd]
    end;
    match goal with
    | |- context [?g !! ("/src/musicgen-" +:+ v +:+ ".th")] =>
        destruct (g !! ("/src/musicgen-" +:+ v +:+ ".th")) as [[]|] eqn:E;
          cbn [fs log fst snd]
    end;
    try (destruct (pget C _ _ =? 0); cbn [fs log fst snd];
         rewrite ?lookup_insert_eq);
    rewrite ?E; cbn [fs log fst snd]; rewrite <- ?app_assoc;
    try reflexivity.
Qed.

(** ** What a call does to the working directory *)

Lemma filter_below_lookup (dir : string) (files : gmap string file) p :
  filter (fun kv => below dir kv.1 = false) files !! p
  = if below dir p then None else files !! p.
Proof.
  apply option_eq. intros x. rewrite map_lookup_filter_Some. simpl.
  destruct (below dir p); split; try discriminate; try tauto.
  intros [_ H]; discriminate.
Qed.

Lemma sweep_lookup dir (files : gmap string file) p :
  sweep dir files !! p
  = match files !! resolve dir with
    | Some Directory => if below (resolve dir) p then None else files !! p
    | _ => files !! p
    end.
Proof.
  unfold sweep. destruct (files !! resolve dir) as [[]|]; try reflexivity.
  apply filter_below_lookup.
Qed.

Lemma sweep_other dir (files : gmap string file) p :
  below (resolve dir) p = false -> sweep dir files !! p = files !! p.
Proof.
  intros H. rewrite sweep_lookup, H.
  destruct (files !! resolve dir) as [[]|]; reflexivity.
Qed.

Lemma sweep_below dir (files : gmap string file) p :
  files !! resolve dir = Some Directory ->
  below (resolve dir) p = true -> sweep dir files !! p = None.
Proof. intros HD H. rewrite sweep_lookup, HD, H. reflexivity. Qed.

Lemma sweep_absent dir (files : gmap string file) p :
  files !! p = None -> sweep dir files !! p = None.
Proof.
  intros H. rewrite sweep_lookup, H.
  destruct (files !! resolve dir) as [[]|]; try reflexivity.
  destruct (below _ p); reflexivity.
Qed.

Section Frames.
Context {A B : Type} (S : string -> Prop).

Lemma touches_ret (a : A) : touches S (mret a).
Proof. intros w p _; reflexivity. Qed.

Lemma touches_raise (e : exn) : touches S (@raise A e).
Proof. intros w p _; reflexivity. Qed.

Lemma touches_lift (r : result A) : touches S (lift r).
Proof. intros w p _; reflexivity. Qed.

Lemma touches_get_fs : touches S get_fs.
Proof. intros w p _; reflexivity. Qed.

Lemma touches_emit e : touches S (emit e).
Proof. intros w p _; reflexivity. Qed.

Lemma touches_bind (m : M A) (k : A -> M B) :
  touches S m -> (forall a, touches S (k a)) -> touches S (m ≫= k).
Proof.
  intros Hm Hk w p Hp. unfold mbind, M_bind.
  specialize (Hm w p Hp).
  destruct (m w) as [[a|e] w1]; simpl in *.
  - rewrite (Hk a w1 p Hp). exact Hm.
  - exact Hm.
Qed.

Lemma bind_fs (m : M A) (k : A -> M B) w p :
  (forall a, touches S (k a)) -> ~ S p ->
  fs ((m ≫= k) w).2 !! p = fs (m w).2 !! p.
Proof.
  intros Hk Hp. unfold mbind, M_bind.
  destruct (m w) as [[a|e] w1]; simpl; [apply Hk, Hp | reflexivity].
Qed.

Lemma bind_log (P : event -> Prop) (m : M A) (k : A -> M B) w :
  (forall a, emits P (k a)) ->
  exists evs, log ((m ≫= k) w).2 = log (m w).2 ++ evs /\ Forall P evs.
Proof.
  intros Hk. unfold mbind, M_bind.
  destruct (m w) as [[a|e] w1]; simpl; [apply Hk|].
  exists []. rewrite app_nil_r. auto.
Qed.
End Frames.

Lemma touches_path_exists S p : touches S (path_exists p).
Proof. intros w q _; reflexivity. Qed.

Lemma touches_isfile S p : touches S (isfile p).
Proof. intros w q _; reflexivity. Qed.

Lemma touches_isdir S p : touches S (isdir p).
Proof. intros w q _; reflexivity. Qed.

Lemma touches_write_file (S : string -> Prop) p f :
  S (resolve p) -> touches S (write_file p f).
Proof.
  intros HS w q Hq. unfold write_file, get_fs, put_fs, mbind, M_bind; simpl.
  apply lookup_insert_ne. intros <-. contradiction.
Qed.

Lemma touches_os_remove (S : string -> Prop) p :
  S (resolve p) -> touches S (os_remove p).
Proof.
  intros HS w q Hq.
  unfold os_remove, get_fs, put_fs, emit, raise, mbind, M_bind; simpl.
  destruct (fs w !! resolve p); simpl; [|reflexivity].
  apply lookup_delete_ne. intros <-. contradiction.
Qed.

Lemma touches_rmtree (S : string -> Prop) p :
  (forall q, below (resolve p) q = true -> S q) -> touches S (rmtree p).
Proof.
  intros HS w q Hq. unfold rmtree, get_fs, put_fs, emit, mbind, M_bind; simpl.
  rewrite filter_below_lookup.
  destruct (below (resolve p) q) eqn:E; [|reflexivity].
  exfalso. apply Hq, HS, E.
Qed.

Ltac touches_step side :=
  first
    [ apply touches_ret | apply touches_raise | apply touches_lift
    | apply touches_get_fs | apply touches_emit
    | apply touches_path_exists | apply touches_isfile | apply touches_isdir
    | apply touches_write_file; side
    | apply touches_os_remove; side
    | apply touches_rmtree; side
    | progress cbv beta zeta
    | match goal with
      | |- touches _ (match ?x with _ => _ end) => destruct x
      end
    | apply touches_mix_then
    | apply touches_bind; [|intros] ].
Ltac touches_run side := repeat (touches_step side).

Ltac unfold_stages :=
  unfold after_loading, predict, configure, load_model, check_call_pget,
    load_ckpt, produce, set_all_seeds, np_random_seed, audio_write, deliver,
    export_main,
    export_instrumental, call_ffmpeg.

Lemma changeable_weights a :
  changeable a (resolve ("/src/musicgen-" +:+ model_version a +:+ ".th")).
Proof.
  unfold changeable, may_change, weights_path.
  change (resolve ("/src/musicgen-" +:+ model_version a +:+ ".th"))
    with ("/src/musicgen-" +:+ model_version a +:+ ".th").
  rewrite String.eqb_refl, orb_true_r. reflexivity.
Qed.

Lemma changeable_demix a q :
  below (resolve "demix") q = true -> changeable a q.
Proof. unfold changeable, may_change. intros ->. reflexivity. Qed.

Lemma changeable_spec a q :
  below (resolve "spec") q = true -> changeable a q.
Proof.
  unfold changeable, may_change. intros ->.
  rewrite orb_true_r. reflexivity.
Qed.

Ltac changeable_side :=
  first [ reflexivity | apply changeable_weights
        | apply changeable_demix | apply changeable_spec ].

Lemma touches_predict C a : touches (changeable a) (predict C a).
Proof. unfold_stages. touches_run changeable_side. Qed.

Ltac work_file_side := reflexivity.

Lemma touches_after_loading C a p m cfg :
  touches is_work_file (after_loading C a p m cfg).
Proof. unfold_stages. touches_run work_file_side. Qed.

Ltac emits_open := unfold_stages; unfold os_remove, rmtree, write_file,
  path_exists, isfile, isdir; emits_run.

Lemma no_download_after_loading C a p m cfg :
  emits no_download (after_loading C a p m cfg).
Proof. emits_open. Qed.

Lemma writable_weights a :
  writable a (resolve ("/src/musicgen-" +:+ model_version a +:+ ".th")).
Proof.
  unfold writable, may_write, weights_path.
  change (resolve ("/src/musicgen-" +:+ model_version a +:+ ".th"))
    with ("/src/musicgen-" +:+ model_version a +:+ ".th").
  rewrite String.eqb_refl, orb_true_r. reflexivity.
Qed.

Lemma writable_demix a q :
  below (resolve "demix") q = true -> writable a q.
Proof. unfold writable, may_write. intros ->. reflexivity. Qed.

Lemma writable_spec a q :
  below (resolve "spec") q = true -> writable a q.
Proof.
  unfold writable, may_write. intros ->.
  rewrite orb_true_r. reflexivity.
Qed.

Ltac writable_side :=
  first [ reflexivity | apply writable_weights
        | apply writable_demix | apply writable_spec ].

Lemma touches_configure C a : touches (writable a) (configure C a).
Proof.
  unfold configure, load_model, check_call_pget, load_ckpt.
  touches_run writable_side.
Qed.

Lemma touches_produce C a p m cfg :
  touches (writable a) (produce C a p m cfg).
Proof.
  unfold produce, set_all_seeds, np_random_seed, audio_write.
  touches_run writable_side.
Qed.

(** What a call writes: lines 405-433 are not reached, so [out.wav],
    [out.mp3] and the two [background_synced] files are left alone. *)
Lemma touches_predict_writable C a : touches (writable a) (predict C a).
Proof.
  unfold predict. apply touches_bind; [apply touches_configure|].
  intros [[p m] cfg].
  apply touches_bind_fails; [apply touches_produce | apply fails_produce].
Qed.

(** ** The beat-sync threshold *)

(** C8: when the caller does not override the beat-sync threshold (it is
    absent, or the documented sentinel -1), the threshold is exactly 0.75
    when the analysis has no BPM, and with a BPM of 120 it is
    1.1/(120/60), which is 0.55. *)
Theorem fallback_beat_sync_threshold (t : option float) :
  t = None \/ t = Some (-1)%float ->
  effective_beat_sync_threshold t None = Ok 0.75%float /\
  effective_beat_sync_threshold t (Some 120)
  = Ok (1.1 / (float_of_int 120 / float_of_int 60))%float /\
  (1.1 / (float_of_int 120 / float_of_int 60))%float = 0.55%float.
Proof.
  intros [-> | ->]; repeat split; reflexivity.
Qed.

Lemma fallback_beat_sync_threshold_witness :
  effective_beat_sync_threshold None None = Ok 0.75%float /\
  effective_beat_sync_threshold None (Some 120)
  = Ok (1.1 / (float_of_int 120 / float_of_int 60))%float /\
  (1.1 / (float_of_int 120 / float_of_int 60))%float = 0.55%float.
Proof.
  apply (fallback_beat_sync_threshold None). left. reflexivity.
Defined.

Lemma zero_threshold_is_absent bpm :
  effective_beat_sync_threshold (Some 0%float) bpm
  = effective_beat_sync_threshold None bpm.
Proof. reflexivity. Qed.

(** C10: a supplied [beat_sync_threshold] of 0.0 is discarded: the
    threshold is the documented fallback, 1.1/(bpm/60) with a BPM and 0.75
    without, and the whole prediction runs exactly as if no threshold had
    been supplied. *)
Theorem zero_threshold_falls_back (C : collaborators) (a : inputs) (w : world)
    (bpm : option Z) :
  effective_beat_sync_threshold (Some 0%float) bpm = documented_fallback bpm /\
  effective_beat_sync_threshold None bpm = documented_fallback bpm /\
  effective_beat_sync_threshold (Some 0%float) None = Ok 0.75%float /\
  effective_beat_sync_threshold (Some 0%float) (Some 120) = Ok 0.55%float /\
  predict C (with_threshold (Some 0%float) a) w
  = predict C (with_threshold None a) w.
Proof.
  repeat split; reflexivity.
Qed.

(** ** Validation before generation *)

Lemma configure_quiet C a files :
  Forall quiet (log (configure C a (fresh files)).2).
Proof.
  destruct (emits_configure C quiet (fun e H => H) a (fresh files))
    as (evs & E & F).
  rewrite E. exact F.
Qed.

(** C3: when multi-band diffusion decode is requested and the model that
    loads has the stereo configuration (eight codebooks, the test of line
    240), the call raises a [ValueError], whatever the other inputs are, and
    no network has run by then: no analysis, separation, generation or
    diffusion decode is in the log. *)
Theorem mbd_stereo_rejected (C : collaborators) (a : inputs)
    (files : gmap string file) (cfg : model_cfg) (w1 : world) :
  multi_band_diffusion a = true ->
  load_model C (model_version a) (fresh files) = (Ok cfg, w1) ->
  n_q cfg = 8 ->
  exists msg w',
    predict C a (fresh files) = (Raise (ValueError msg), w') /\
    Forall quiet (log w').
Proof.
  intros Hmbd Hload Hq.
  pose proof (configure_quiet C a files) as Hlog.
  assert (exists msg w',
             configure C a (fresh files) = (Raise (ValueError msg), w'))
    as (msg & w' & Hc).
  { unfold configure.
    destruct (prompt a) as [p|]; [|eexists _, _; reflexivity].
    destruct (music_input a) as [m|]; [|eexists _, _; reflexivity].
    unfold mbind, M_bind, mret, M_ret; simpl.
    rewrite Hload, Hmbd, Hq; simpl.
    destruct (large_chord_voca a); simpl; eexists _, _; reflexivity. }
  exists msg, w'. rewrite Hc in Hlog.
  unfold predict, mbind, M_bind. rewrite Hc. auto.
Qed.

Lemma mbd_stereo_rejected_witness :
  exists msg w',
    predict (studio 8 short_wave good_ffmpeg) (request true "wav" false)
      (fresh ∅)
    = (Raise (ValueError msg), w') /\
    Forall quiet (log w').
Proof.
  eapply (mbd_stereo_rejected (studio 8 short_wave good_ffmpeg)
            (request true "wav" false) ∅);
    reflexivity.
Defined.

(** ** Seeding *)




(** ** Runs in which the code departs from the specification *)

Lemma not_writable_output a p :
  In p ["out.wav"; "out.mp3"; "background_synced.wav";
        "background_synced.mp3"] ->
  ~ writable a (resolve p).
Proof.
  unfold writable. simpl In.
  intros [<-|[<-|[<-|[<-|[]]]]] H; vm_compute in H; discriminate H.
Qed.

(** C1: no call writes or returns the final artifact.  Whatever the
    inputs, the collaborators and the working directory, the call raises,
    it never hands a buffer to the encoder under the name [out], and
    [out.wav] is left as it was.  On a four-sample clip for which the
    generator returns three samples, the call gets as far as encoding
    [background.wav], with the three generated samples, and ends at line
    383 with a [TypeError]. *)
Theorem out_is_never_written (C : collaborators) (a : inputs) (w : world) :
  (exists e, (predict C a w).1 = Raise e) /\
  (exists evs,
     log (predict C a w).2 = log w ++ evs /\ Forall not_out_write evs) /\
  fs (predict C a w).2 !! resolve "out.wav" = fs w !! resolve "out.wav" /\
  let run := predict (studio 4 short_wave good_ffmpeg)
               (request false "wav" false) (fresh ∅) in
  run.1 = Raise (TypeErr "zeros() received an invalid combination of arguments") /\
  length clip = 4%nat /\ length short_wave = 3%nat /\
  fs run.2 !! resolve "background.wav"
  = Some (Wav [short_wave] 32000 "loudness" false) /\
  fs run.2 !! resolve "out.wav" = None.
Proof.
  split; [apply fails_predict|].
  split; [apply (emits_weaken is_reached not_out_write _
                   reached_not_out_write (reached_predict C a))|].
  split.
  - apply (touches_predict_writable C a), not_writable_output.
    simpl. auto.
  - vm_compute. repeat split; reflexivity.
Qed.


(** C5: an all-zero generated waveform.  Its peak is zero and line 306
    divides by it all the same, which gives NaN; the guarded normalization
    of lines 394-396 would have left the zeros alone. *)
Theorem silent_waveform_divided_by_zero :
  let run := predict (studio 4 silent_wave good_ffmpeg)
               (request false "wav" false) (fresh ∅) in
  Torch.max (Torch.abs (sanitize silent_wave)) = Ok F32.zero /\
  normalize_unguarded (sanitize silent_wave) = Ok nan_wave /\
  normalize_guarded (sanitize silent_wave) = Ok silent_wave /\
  In (AudioWrite "background" [nan_wave] 32000 "loudness" false) (log run.2).
Proof.
  vm_compute. repeat split; auto 20.
Qed.


Lemma predict_without_ffmpeg f C a w :
  predict (with_ffmpeg f C) a w = predict C a w.
Proof.
  unfold predict. rewrite !bind_run.
  change (configure (with_ffmpeg f C) a w) with (configure C a w).
  destruct (configure C a w) as [[[[p m] cfg]|e] w1]; [|reflexivity].
  cbn beta iota.
  change (produce (with_ffmpeg f C) a p m cfg) with (produce C a p m cfg).
  destruct (bind_fails (produce C a p m cfg)
              (fun _ => deliver (with_ffmpeg f C) a) w1
              (fails_produce C a p m cfg)) as (e1 & E1 & ->).
  destruct (bind_fails (produce C a p m cfg) (fun _ => deliver C a) w1
              (fails_produce C a p m cfg)) as (e2 & E2 & ->).
  assert (e1 = e2) as -> by congruence. reflexivity.
Qed.

(** C7: the transcoding is never reached.  Whatever [ffmpeg] does, the
    call is the same: its result, the files and the log do not depend on
    it, and the log holds no encoding of [out], no [ffmpeg] run and no
    removal of a file.  With the mp3 format the call ends at line 383 with
    a [TypeError]; neither [out.wav] nor [out.mp3] exists afterwards. *)
Theorem transcoding_is_never_reached (C : collaborators) (a : inputs)
    (w : world) (f : option file -> Z * option file) :
  predict (with_ffmpeg f C) a w = predict C a w /\
  (exists evs,
     log (predict C a w).2 = log w ++ evs /\ Forall not_delivery evs) /\
  let run := predict (studio 4 short_wave good_ffmpeg)
               (request false "mp3" false) (fresh ∅) in
  run = predict (studio 4 short_wave failing_ffmpeg)
          (request false "mp3" false) (fresh ∅) /\
  run.1 = Raise (TypeErr "zeros() received an invalid combination of arguments") /\
  fs run.2 !! resolve "out.wav" = None /\
  fs run.2 !! resolve "out.mp3" = None.
Proof.
  split; [apply predict_without_ffmpeg|].
  split; [apply (emits_weaken is_reached not_delivery _
                   reached_not_delivery (reached_predict C a))|].
  vm_compute. repeat split; reflexivity.
Qed.

(** C9: the two-channel buffer is never built.  The mixing of lines
    376-396 raises on every waveform and every vocal stem, so no call
    hands a buffer to the encoder under the name [out].  On a generated
    waveform and a vocal stem of unit peak, the error is the [TypeError]
    of line 383. *)
Theorem output_buffer_is_never_built (C : collaborators) (a : inputs)
    (w : world) (wav vocal : tensor) (wav_length : nat) :
  (exists e, mix wav vocal wav_length = Raise e) /\
  (exists evs,
     log (predict C a w).2 = log w ++ evs /\ Forall not_out_write evs) /\
  Torch.max (Torch.abs short_wave) = Ok F32.one /\
  Torch.max (Torch.abs vocal_stem) = Ok F32.one /\
  mix short_wave vocal_stem (length short_wave)
  = Raise (TypeErr "zeros() received an invalid combination of arguments").
Proof.
  split; [apply mix_raises|].
  split; [apply (emits_weaken is_reached not_out_write _
                   reached_not_out_write (reached_predict C a))|].
  repeat split; reflexivity.
Qed.

(** * Further properties of the pipeline *)

(** ** Sanitation and mixing, for every waveform *)

Lemma repair_idem x : repair (repair x) = repair x.
Proof. destruct x; reflexivity. Qed.

(** X1: the sanitation of lines 299-303 acts sample by sample: NaN becomes
    0.0, an infinity of either sign becomes +1.0, any other sample is kept.
    It keeps the length, leaves no non-finite sample, and a second pass
    changes nothing. *)
Theorem sanitize_repairs_every_sample (w : tensor) :
  sanitize w
  = map (fun x => if F32.is_nan x then F32.zero
                  else if F32.is_inf x then F32.one else x) w /\
  length (sanitize w) = length w /\
  Forall (fun x => F32.is_finite x = true) (sanitize w) /\
  sanitize (sanitize w) = sanitize w.
Proof.
  repeat split.
  - rewrite sanitize_map. apply map_ext. intros x; destruct x; reflexivity.
  - apply sanitize_length.
  - rewrite sanitize_map.
    induction w as [|x w IH]; simpl; constructor;
      [apply repair_finite | exact IH].
  - rewrite !sanitize_map, map_map. apply map_ext, repair_idem.
Qed.

(** X2: the mixing of lines 376-396 never returns.  On an empty waveform
    or an empty vocal stem the peak cannot be taken and [max] raises
    [RuntimeError]; on any other pair line 383 raises [TypeError], since
    [torch.zeros] is given an integer followed by a [torch.Size].  Neither
    the stems' lengths nor their samples nor the cut play a part. *)
Theorem mix_never_returns (wav vocal : tensor) (wav_length : nat) :
  mix wav vocal wav_length
  = Raise match wav, vocal with
          | _ :: _, _ :: _ =>
              TypeErr "zeros() received an invalid combination of arguments"
          | _, _ =>
              RuntimeError "max(): Expected reduction dim to be specified for input.numel() == 0"
          end.
Proof. destruct wav, vocal; reflexivity. Qed.

(** ** Seed and threshold *)

(** X5: a supplied seed of 0 or -1 is discarded: the call runs exactly as
    with no seed.  The seed drawn then is [torch.seed() % 2 ** 32 - 1],
    the remainder being taken before the subtraction: it lies between -1
    and 2^32 - 2, and it is -1 exactly when the drawn value is a multiple
    of 2^32. *)
Theorem seed_sentinels_draw_a_seed (C : collaborators) (a : inputs)
    (w : world) (drawn : Z) :
  predict C (with_seed (Some 0) a) w = predict C (with_seed None a) w /\
  predict C (with_seed (Some (-1)) a) w = predict C (with_seed None a) w /\
  effective_seed None drawn = drawn mod 2 ^ 32 - 1 /\
  -1 <= effective_seed None drawn <= 2 ^ 32 - 2 /\
  (effective_seed None drawn = -1 <-> drawn mod 2 ^ 32 = 0).
Proof.
  split; [reflexivity|]. split; [reflexivity|].
  assert (E : effective_seed None drawn = drawn mod 2 ^ 32 - 1) by reflexivity.
  rewrite E.
  pose proof (Z.mod_pos_bound drawn (2 ^ 32) eq_refl).
  repeat split; lia.
Qed.

Lemma configure_inputs C a w p m cfg w1 :
  configure C a w = (Ok (p, m, cfg), w1) ->
  prompt a = Some p /\ music_input a = Some m.
Proof.
  unfold configure.
  destruct (prompt a) as [p0|]; [|discriminate].
  destruct (music_input a) as [m0|]; [|discriminate].
  unfold mbind, M_bind, mret, M_ret; simpl.
  destruct (load_model C (model_version a) w) as [[cfg0|] w0]; [|discriminate].
  destruct (large_chord_voca a); simpl;
    (destruct (multi_band_diffusion a && (n_q cfg0 =? 8)); simpl;
     [discriminate | intros [= <- <- <- <-]; auto]).
Qed.

Lemma supplied_kept t bpm :
  supplied t = true -> exists x, effective_beat_sync_threshold t bpm = Ok x.
Proof.
  unfold supplied, effective_beat_sync_threshold. intros H.
  apply negb_true_iff in H. rewrite H.
  destruct t; eauto.
Qed.

Lemma fallback_any t bpm x :
  documented_fallback bpm = Ok x ->
  exists y, effective_beat_sync_threshold t bpm = Ok y.
Proof.
  unfold documented_fallback, effective_beat_sync_threshold. intros H.
  destruct (_ || _); [rewrite H; eauto|]. destruct t; eauto.
Qed.

Lemma produce_threshold C a t1 t2 p m cfg w x1 x2 :
  effective_beat_sync_threshold t1 (analyze_bpm C m) = Ok x1 ->
  effective_beat_sync_threshold t2 (analyze_bpm C m) = Ok x2 ->
  produce C (with_threshold t1 a) p m cfg w
  = produce C (with_threshold t2 a) p m cfg w.
Proof.
  intros E1 E2.
  unfold produce, set_all_seeds, audio_write, write_file, emit, lift, get_fs,
    put_fs, mbind, M_bind, mret, M_ret; simpl.
  destruct (torchaudio_load C m) as [music sr]; simpl.
  rewrite E1, E2. reflexivity.
Qed.

(** X6: the beat-sync threshold reaches no step of the call.  Two calls
    that differ only in [beat_sync_threshold] have the same result and
    leave the same world, provided the threshold computation of lines
    267-271 does not raise: both thresholds are kept as supplied, or the
    fallback [1.1/(bpm/60)] can be computed. *)
Theorem beat_sync_threshold_is_unused (C : collaborators) (a : inputs)
    (w : world) (t1 t2 : option float) :
  (forall m, music_input a = Some m ->
     (supplied t1 = true /\ supplied t2 = true)
     \/ exists x, documented_fallback (analyze_bpm C m) = Ok x) ->
  predict C (with_threshold t1 a) w = predict C (with_threshold t2 a) w.
Proof.
  intros H. unfold predict, mbind at 1 3, M_bind at 1 3.
  change (configure C (with_threshold t1 a) w) with (configure C a w).
  change (configure C (with_threshold t2 a) w) with (configure C a w).
  destruct (configure C a w) as [[[[p m] cfg]|e] w1] eqn:Hc; [|reflexivity].
  apply configure_inputs in Hc as [_ Hm].
  assert (exists x1 x2,
             effective_beat_sync_threshold t1 (analyze_bpm C m) = Ok x1 /\
             effective_beat_sync_threshold t2 (analyze_bpm C m) = Ok x2)
    as (x1 & x2 & E1 & E2).
  { destruct (H m Hm) as [[S1 S2] | [x Hx]].
    - destruct (supplied_kept t1 (analyze_bpm C m) S1) as [x1 E1].
      destruct (supplied_kept t2 (analyze_bpm C m) S2) as [x2 E2]. eauto.
    - destruct (fallback_any t1 _ _ Hx) as [x1 E1].
      destruct (fallback_any t2 _ _ Hx) as [x2 E2]. eauto. }
  unfold mbind, M_bind.
  rewrite (produce_threshold C a t1 t2 p m cfg w1 x1 x2 E1 E2).
  reflexivity.
Qed.

Lemma beat_sync_threshold_is_unused_witness :
  predict (studio 4 short_wave good_ffmpeg)
    (with_threshold (Some 0.3%float) (request false "wav" false)) (fresh ∅)
  = predict (studio 4 short_wave good_ffmpeg)
      (with_threshold None (request false "wav" false)) (fresh ∅).
Proof.
  apply (beat_sync_threshold_is_unused (studio 4 short_wave good_ffmpeg)
           (request false "wav" false) (fresh ∅) (Some 0.3%float) None).
  intros m _. right. exists 0.55%float. reflexivity.
Defined.

(** X7: a tempo that truncates to 0, with no threshold kept from the
    caller (absent, 0.0 or -1), makes line 269 divide by zero: with a
    seed that numpy accepts, the call raises [ZeroDivisionError] after
    seeding, analysis and loading the clip, before any separation,
    generation or write. *)
Theorem zero_tempo_aborts (C : collaborators) (a : inputs) (w w1 : world)
    (p m : string) (cfg : model_cfg) :
  configure C a w = (Ok (p, m, cfg), w1) ->
  0 <= effective_seed (seed a) (torch_seed C) < 2 ^ 32 ->
  analyze_bpm C m = Some 0 ->
  supplied (beat_sync_threshold a) = false ->
  exists w',
    predict C a w = (Raise ZeroDivisionError, w') /\
    fs w' = fs w1 /\
    log w' = log w1 ++ seeding (effective_seed (seed a) (torch_seed C))
             ++ [Analyze m; TorchaudioLoad m].
Proof.
  intros Hc Hseed Hbpm Hs.
  destruct (predict_run _ _ _ _ _ _ _ Hc) as (e & Hprod & ->).
  assert (E : effective_beat_sync_threshold (beat_sync_threshold a) (Some 0)
              = Raise ZeroDivisionError).
  { unfold supplied in Hs. apply negb_false_iff in Hs.
    unfold effective_beat_sync_threshold. rewrite Hs. reflexivity. }
  assert (Hrun : produce C a p m cfg w1
                 = (Raise ZeroDivisionError,
                    World (fs w1)
                      (log w1
                       ++ seeding (effective_seed (seed a) (torch_seed C))
                       ++ [Analyze m; TorchaudioLoad m]))).
  { unfold produce. cbv zeta.
    rewrite bind_run, (set_all_seeds_accepted _ w1 Hseed).
    unfold emit, lift, mbind, M_bind; cbn [fs log].
    destruct (torchaudio_load C m) as [music sr].
    rewrite Hbpm, E. rewrite <- !app_assoc. reflexivity. }
  rewrite Hrun in Hprod |- *. injection Hprod as <-.
  eexists. split; [reflexivity|]. split; reflexivity.
Qed.

Lemma zero_tempo_aborts_witness :
  exists w',
    predict (tempo_studio (Some 0)) (request false "wav" false) (fresh ∅)
    = (Raise ZeroDivisionError, w') /\
    fs w' = fs (configure (tempo_studio (Some 0)) (request false "wav" false)
                  (fresh ∅)).2 /\
    log w' = log (configure (tempo_studio (Some 0))
                    (request false "wav" false) (fresh ∅)).2
             ++ seeding 42 ++ [Analyze "clip.wav"; TorchaudioLoad "clip.wav"].
Proof.
  apply (zero_tempo_aborts (tempo_studio (Some 0)) (request false "wav" false)
           (fresh ∅)
           (configure (tempo_studio (Some 0)) (request false "wav" false)
              (fresh ∅)).2
           "uplifting synth pop" "clip.wav" (ModelCfg 4 32000));
    [vm_compute; reflexivity | change (0 <= 42 < 2 ^ 32); lia
    | reflexivity | reflexivity].
Defined.

(** X8: every path outside the scratch directories [demix] and [spec],
    the weights of the requested model and the six work files
    ([input_vocal.wav], [background.wav], [out.wav], [out.mp3],
    [background_synced.wav], [background_synced.mp3]) holds after the call
    what it held before, however the call ends. *)
Theorem predict_changes_only_its_files (C : collaborators) (a : inputs)
    (w : world) (p : string) :
  may_change a p = false ->
  fs (predict C a w).2 !! p = fs w !! p.
Proof.
  intros H. apply (touches_predict C a). unfold changeable. rewrite H.
  discriminate.
Qed.

Lemma predict_changes_only_its_files_witness :
  fs (predict (studio 4 short_wave good_ffmpeg) (request false "mp3" false)
        (fresh {["/src/clip.wav" := Other "clip"]})).2 !! "/src/clip.wav"
  = fs (fresh {["/src/clip.wav" := Other "clip"]}) !! "/src/clip.wav".
Proof.
  apply (predict_changes_only_its_files (studio 4 short_wave good_ffmpeg)
           (request false "mp3" false)
           (fresh {["/src/clip.wav" := Other "clip"]}) "/src/clip.wav").
  reflexivity.
Defined.

Lemma below_not_work_file dir q :
  dir = "demix" \/ dir = "spec" ->
  below (resolve dir) q = true -> ~ is_work_file q.
Proof.
  unfold is_work_file, work_files. simpl existsb.
  intros Hdir Hq H.
  repeat (apply orb_true_iff in H as [H|H]);
    try discriminate H;
    apply String.eqb_eq in H; subst q;
    destruct Hdir; subst dir; discriminate Hq.
Qed.

Lemma below_not_weights dir v :
  dir = "demix" \/ dir = "spec" ->
  below (resolve dir) ("/src/musicgen-" +:+ v +:+ ".th") = false.
Proof. intros [-> | ->]; reflexivity. Qed.

(** X9: a scratch directory left by an earlier run, [demix] or [spec], is
    removed with everything below it as soon as the inputs are validated:
    whatever the call does next, and however it ends, no path below it
    exists afterwards. *)
Theorem scratch_directories_are_removed (C : collaborators) (a : inputs)
    (files : gmap string file) (dir p m q : string) :
  prompt a = Some p -> music_input a = Some m ->
  dir = "demix" \/ dir = "spec" ->
  files !! resolve dir = Some Directory ->
  below (resolve dir) q = true ->
  fs (predict C a (fresh files)).2 !! q = None.
Proof.
  intros Hp Hm Hdir HD Hq.
  rewrite (predict_split C a _ p m Hp Hm).
  rewrite (bind_fs is_work_file);
    [| intros cfg; apply touches_after_loading
     | eapply below_not_work_file; eauto ].
  rewrite load_model_run. cbv zeta. cbn [fs log fresh].
  assert (H2 : sweep "spec" (sweep "demix" files) !! q = None).
  { destruct Hdir as [-> | ->].
    - apply sweep_absent, sweep_below; assumption.
    - apply sweep_below; [|exact Hq].
      rewrite sweep_other by reflexivity. exact HD. }
  pose proof (below_not_weights dir (model_version a) Hdir) as Hw.
  assert (Hne : "/src/musicgen-" +:+ model_version a +:+ ".th" <> q).
  { intros E. rewrite E in Hw. congruence. }
  destruct (sweep "spec" (sweep "demix" files)
            !! ("/src/musicgen-" +:+ model_version a +:+ ".th")) as [[]|];
    try (destruct (pget C _ _ =? 0)); cbn [fs snd];
    rewrite ?lookup_insert_ne by exact Hne; exact H2.
Qed.

Lemma scratch_directories_are_removed_witness :
  fs (predict (studio 4 short_wave good_ffmpeg) (request false "wav" false)
        (fresh {["/src/demix" := Directory;
                 "/src/demix/htdemucs/clip.wav" := Other "stem"]})).2
  !! "/src/demix/htdemucs/clip.wav" = None.
Proof.
  apply (scratch_directories_are_removed (studio 4 short_wave good_ffmpeg)
           (request false "wav" false) _ "demix" "uplifting synth pop"
           "clip.wav");
    [reflexivity | reflexivity | left; reflexivity | reflexivity | reflexivity].
Defined.

(** ** Weights *)

Lemma sweep_logs_are_rmtree (files : gmap string file) :
  Forall (fun e => is_rmtree e = true)
    (sweep_log "demix" files ++ sweep_log "spec" (sweep "demix" files)).
Proof.
  unfold sweep_log. apply Forall_app. split.
  - destruct (files !! resolve "demix") as [[]|]; repeat constructor.
  - destruct (sweep "demix" files !! resolve "spec") as [[]|];
      repeat constructor.
Qed.

Lemma swept_weights (files : gmap string file) v :
  sweep "spec" (sweep "demix" files) !! ("/src/musicgen-" +:+ v +:+ ".th")
  = files !! ("/src/musicgen-" +:+ v +:+ ".th").
Proof. rewrite !sweep_other by reflexivity. reflexivity. Qed.

(** X10: weights found in place are not fetched again.  When the file
    [/src/musicgen-<model_version>.th] exists as a regular file, no [pget]
    runs at any point of the call. *)
Theorem cached_weights_are_not_downloaded (C : collaborators) (a : inputs)
    (files : gmap string file) (f : file) :
  files !! weights_path a = Some f -> f <> Directory ->
  Forall (fun e => is_download e = false)
    (log (predict C a (fresh files)).2).
Proof.
  intros Hf Hnd.
  destruct (prompt a) as [p|] eqn:Hp;
    [|unfold predict, configure; rewrite Hp; constructor].
  destruct (music_input a) as [m|] eqn:Hm;
    [|unfold predict, configure; rewrite Hp, Hm; constructor].
  rewrite (predict_split C a _ p m Hp Hm).
  destruct (bind_log no_download (load_model C (model_version a))
              (after_loading C a p m) (fresh files)
              (no_download_after_loading C a p m)) as (evs & -> & Hevs).
  apply Forall_app. split; [|exact Hevs].
  rewrite load_model_run. cbv zeta. cbn [fs log fresh].
  rewrite swept_weights. unfold weights_path in Hf. rewrite Hf.
  assert (Hs : Forall (fun e => is_download e = false)
                 (sweep_log "demix" files
                  ++ sweep_log "spec" (sweep "demix" files))).
  { eapply Forall_impl; [apply sweep_logs_are_rmtree|].
    intros [] H; try discriminate H; reflexivity. }
  destruct f; try contradiction; cbn [log snd app];
    (apply Forall_app; split; [exact Hs | repeat constructor]).
Qed.

Lemma cached_weights_are_not_downloaded_witness :
  Forall (fun e => is_download e = false)
    (log (predict (studio 4 short_wave good_ffmpeg)
            (request false "wav" false)
            (fresh {["/src/musicgen-chord.th" := Weights]})).2).
Proof.
  apply (cached_weights_are_not_downloaded (studio 4 short_wave good_ffmpeg)
           (request false "wav" false)
           {["/src/musicgen-chord.th" := Weights]} Weights);
    [reflexivity | discriminate].
Defined.

(** X11: a failed download ends the call.  When the weights are not in
    place and [pget] exits with a status other than 0, the call raises
    [CalledProcessError]; by then it has removed the scratch directories
    and run [pget], nothing else: no checkpoint is loaded, no seed is
    set, and the weights file does not exist. *)
Theorem failed_download_aborts (C : collaborators) (a : inputs)
    (files : gmap string file) (p m : string) :
  prompt a = Some p -> music_input a = Some m ->
  files !! weights_path a = None ->
  pget C (weights_url (model_version a)) (weights_path a) <> 0 ->
  exists w' sweeps,
    predict C a (fresh files) = (Raise (CalledProcessError "pget"), w') /\
    fs w' !! weights_path a = None /\
    log w' = sweeps ++ [Pget (weights_url (model_version a)) (weights_path a)] /\
    Forall (fun e => is_rmtree e = true) sweeps.
Proof.
  intros Hp Hm Hf Hpget.
  rewrite (predict_split C a _ p m Hp Hm).
  unfold mbind, M_bind. rewrite load_model_run. cbv zeta. cbn [fs log fresh].
  rewrite swept_weights. unfold weights_path in *. rewrite Hf.
  apply Z.eqb_neq in Hpget. rewrite Hpget.
  eexists _, _. split; [reflexivity|]. cbn [fs log snd].
  split; [rewrite swept_weights; exact Hf|].
  split; [reflexivity | apply sweep_logs_are_rmtree].
Qed.

Lemma failed_download_aborts_witness :
  exists w' sweeps,
    predict (Collaborators (fun _ _ => 1) (fun _ => ModelCfg 4 32000) 7
               (fun _ => None) (fun _ => (clip, 32000))
               (fun _ _ _ => (vocal_stem, background_stem))
               (fun _ _ => (short_wave, [])) (fun _ => short_wave)
               good_ffmpeg)
      (request false "wav" false) (fresh ∅)
    = (Raise (CalledProcessError "pget"), w') /\
    fs w' !! "/src/musicgen-chord.th" = None /\
    log w' = sweeps ++ [Pget (weights_url "chord") "/src/musicgen-chord.th"] /\
    Forall (fun e => is_rmtree e = true) sweeps.
Proof.
  apply (failed_download_aborts
           (Collaborators (fun _ _ => 1) (fun _ => ModelCfg 4 32000) 7
              (fun _ => None) (fun _ => (clip, 32000))
              (fun _ _ _ => (vocal_stem, background_stem))
              (fun _ _ => (short_wave, [])) (fun _ => short_wave)
              good_ffmpeg)
           (request false "wav" false) ∅ "uplifting synth pop" "clip.wav");
    [reflexivity | reflexivity | reflexivity | discriminate].
Defined.

(** ** Inputs that do not reach the output *)

Lemma produce_background f C a p m cfg w :
  produce (with_background f C) a p m cfg w = produce C a p m cfg w.
Proof.
  unfold produce, set_all_seeds, audio_write, write_file, emit, lift, get_fs,
    put_fs, mbind, M_bind, mret, M_ret; simpl.
  destruct (torchaudio_load C m) as [music sr]; simpl.
  destruct (effective_beat_sync_threshold _ _); [|reflexivity].
  destruct (int_truediv _ sr) as [duration|]; [|reflexivity].
  destruct (demucs C cfg music sr) as [vocal background]; reflexivity.
Qed.

(** X12: the background stem of the separator is computed and dropped:
    whatever it is replaced by, the call returns the same result and
    leaves the same files and the same log.  Only the vocal stem is
    mixed with the generated waveform. *)
Theorem background_stem_is_unused (f : tensor -> tensor) (C : collaborators)
    (a : inputs) (w : world) :
  predict (with_background f C) a w = predict C a w.
Proof.
  unfold predict, mbind at 1 3, M_bind at 1 3.
  change (configure (with_background f C) a w) with (configure C a w).
  destruct (configure C a w) as [[[[p m] cfg]|e] w1]; [|reflexivity].
  unfold mbind, M_bind. rewrite produce_background. reflexivity.
Qed.

(** X13: the two input checks come first and touch nothing.  Without a
    prompt the call raises [ValueError] naming the prompt, also when the
    clip is missing too; with a prompt and no clip it raises [ValueError]
    naming the clip.  In both cases the files and the log are exactly as
    before the call. *)
Theorem missing_input_is_rejected (C : collaborators) (a : inputs)
    (w : world) :
  (prompt a = None ->
   predict C a w = (Raise (ValueError "Must provide `prompt`."), w)) /\
  (forall p, prompt a = Some p -> music_input a = None ->
   predict C a w = (Raise (ValueError "Must provide `music_input`."), w)).
Proof.
  split.
  - intros Hp. unfold predict, configure. rewrite Hp. reflexivity.
  - intros p Hp Hm. unfold predict, configure. rewrite Hp, Hm. reflexivity.
Qed.

(** ** What a call reaches *)

(** X14: what a call writes.  Every path outside the scratch directories
    [demix] and [spec], the weights of the requested model,
    [input_vocal.wav] and [background.wav] holds after the call what it
    held before: an [out.wav], [out.mp3], [background_synced.wav] or
    [background_synced.mp3] left by an earlier run is neither replaced nor
    removed, whatever the output format and [return_instrumental]. *)
Theorem predict_leaves_outputs_alone (C : collaborators) (a : inputs)
    (w : world) (p : string) :
  may_write a p = false ->
  fs (predict C a w).2 !! p = fs w !! p.
Proof.
  intros H. apply (touches_predict_writable C a). unfold writable.
  rewrite H. discriminate.
Qed.

Lemma predict_leaves_outputs_alone_witness :
  fs (predict (studio 4 short_wave good_ffmpeg) (request false "mp3" true)
        (fresh {["/src/out.mp3" := Other "stale"]})).2 !! "/src/out.mp3"
  = fs (fresh {["/src/out.mp3" := Other "stale"]}) !! "/src/out.mp3".
Proof.
  apply (predict_leaves_outputs_alone (studio 4 short_wave good_ffmpeg)
           (request false "mp3" true)
           (fresh {["/src/out.mp3" := Other "stale"]}) "/src/out.mp3").
  reflexivity.
Defined.

(** X15: the steps a call can take.  Whatever the inputs, every event of
    a call is the removal of a scratch directory, the download or the
    loading of the weights, the switch of the chord vocabulary, a seeding
    call, a run of one of the four networks, or the encoding of a buffer
    as [input_vocal] or [background] without the loudness compressor; and
    the call ends by raising. *)
Theorem predict_takes_reached_steps (C : collaborators) (a : inputs)
    (w : world) :
  (exists evs,
     log (predict C a w).2 = log w ++ evs /\
     Forall (fun e => reached e = true) evs) /\
  exists e, (predict C a w).1 = Raise e.
Proof.
  split; [apply (reached_predict C a) | apply fails_predict].
Qed.




(** * The checkpoint configuration *)

Lemma str_split_nonempty sep s : str_split sep s <> [].
Proof.
  destruct s as [|c s]; simpl; [discriminate|].
  destruct (Ascii.eqb c sep); [discriminate|].
  destruct (str_split sep s); discriminate.
Qed.

Section DeleteParam.
Implicit Types (parts path : list string) (cfg sub : config).

Lemma delete_parts_cons part part' rest cfg :
  delete_parts (part :: part' :: rest) cfg
  = match cfg with
    | DictConfig flag content =>
        match content !! part with
        | Some sub =>
            sub' ← delete_parts (part' :: rest) sub;
            Returns (DictConfig flag (<[part := sub']> content))
        | None => Returns cfg
        end
    | StrValue s =>
        if is_substring part s then Raises TypeError else Returns cfg
    | Value _ => Raises TypeError
    end.
Proof. reflexivity. Qed.

Lemma delete_parts_last part cfg :
  delete_parts [part] cfg
  = match cfg with
    | DictConfig _ content =>
        Returns (DictConfig (Some true) (delete part content))
    | _ => Raises AttributeError
    end.
Proof. reflexivity. Qed.

(** The node that holds the key, when the path leads to a dictionary. *)
Lemma delete_parts_effect parts cfg flag content :
  parts <> [] ->
  select (removelast parts) cfg = Some (DictConfig flag content) ->
  exists cfg',
    delete_parts parts cfg = Returns cfg' /\
    select (removelast parts) cfg'
    = Some (DictConfig (Some true) (delete (List.last parts "") content)) /\
    select parts cfg' = None.
Proof.
  revert cfg. induction parts as [|part [|part' rest] IH]; intros cfg Hne H.
  - contradiction.
  - simpl in H. injection H as ->. rewrite delete_parts_last.
    eexists. split; [reflexivity|]. split; [reflexivity|].
    simpl. rewrite lookup_delete_eq. reflexivity.
  - change (removelast (part :: part' :: rest))
      with (part :: removelast (part' :: rest)) in *.
    change (List.last (part :: part' :: rest) "")
      with (List.last (part' :: rest) "").
    cbn [select] in H.
    destruct cfg as [f m| |]; try discriminate H.
    destruct (m !! part) as [sub|] eqn:Em; [|discriminate H].
    cbn [mbind option_bind] in H.
    destruct (IH sub ltac:(discriminate) H) as (sub' & Hd & Hs & Hn).
    rewrite delete_parts_cons, Em, Hd.
    eexists. split; [reflexivity|].
    cbn [select]. rewrite lookup_insert_eq. cbn [mbind option_bind].
    auto.
Qed.

(** Paths off the one walked keep what they held. *)
Lemma delete_parts_frame parts cfg cfg' path :
  delete_parts parts cfg = Returns cfg' ->
  ~ path `prefix_of` removelast parts ->
  ~ parts `prefix_of` path ->
  select path cfg' = select path cfg.
Proof.
  revert cfg cfg' path.
  induction parts as [|part [|part' rest] IH]; intros cfg cfg' path Hd H1 H2.
  - discriminate Hd.
  - rewrite delete_parts_last in Hd.
    destruct cfg as [f m| |]; try discriminate Hd. injection Hd as <-.
    destruct path as [|k path]; [exfalso; apply H1, prefix_nil|].
    cbn [select]. rewrite lookup_delete_ne; [reflexivity|].
    intros <-. apply H2. apply prefix_cons, prefix_nil.
  - change (removelast (part :: part' :: rest))
      with (part :: removelast (part' :: rest)) in *.
    rewrite delete_parts_cons in Hd.
    destruct cfg as [f m|s|v].
    + destruct (m !! part) as [sub|] eqn:Em;
        [|injection Hd as <-; reflexivity].
      destruct (delete_parts (part' :: rest) sub) as [sub'|] eqn:Hs;
        [|discriminate Hd].
      injection Hd as <-.
      destruct path as [|k path]; [exfalso; apply H1, prefix_nil|].
      cbn [select].
      destruct (decide (part = k)) as [<-|Hk].
      * rewrite lookup_insert_eq, Em. cbn [mbind option_bind].
        apply (IH _ _ _ Hs).
        -- intros HH. apply H1, prefix_cons, HH.
        -- intros HH. apply H2, prefix_cons, HH.
      * rewrite lookup_insert_ne by exact Hk. reflexivity.
    + destruct (is_substring part s); [discriminate Hd|].
      injection Hd as <-. reflexivity.
    + discriminate Hd.
Qed.

(** Without a dictionary at the end of the path nothing changes. *)
Lemma delete_parts_noop parts cfg cfg' :
  delete_parts parts cfg = Returns cfg' ->
  (forall flag content,
      select (removelast parts) cfg <> Some (DictConfig flag content)) ->
  cfg' = cfg.
Proof.
  revert cfg cfg'.
  induction parts as [|part [|part' rest] IH]; intros cfg cfg' Hd H.
  - discriminate Hd.
  - rewrite delete_parts_last in Hd.
    destruct cfg as [f m| |]; try discriminate Hd.
    exfalso. apply (H f m). reflexivity.
  - change (removelast (part :: part' :: rest))
      with (part :: removelast (part' :: rest)) in *.
    rewrite delete_parts_cons in Hd.
    destruct cfg as [f m|s|v].
    + cbn [select] in H.
      destruct (m !! part) as [sub|] eqn:Em;
        [|injection Hd as <-; reflexivity].
      destruct (delete_parts (part' :: rest) sub) as [sub'|] eqn:Hs;
        [|discriminate Hd].
      injection Hd as <-.
      rewrite (IH _ _ Hs) by exact H.
      rewrite insert_id by exact Em. reflexivity.
    + destruct (is_substring part s); [discriminate Hd|].
      injection Hd as <-. reflexivity.
    + discriminate Hd.
Qed.

Lemma delete_parts_idem parts cfg cfg' :
  delete_parts parts cfg = Returns cfg' ->
  delete_parts parts cfg' = Returns cfg'.
Proof.
  revert cfg cfg'.
  induction parts as [|part [|part' rest] IH]; intros cfg cfg' Hd.
  - discriminate Hd.
  - rewrite delete_parts_last in *.
    destruct cfg as [f m| |]; try discriminate Hd. injection Hd as <-.
    rewrite delete_delete_eq. reflexivity.
  - rewrite delete_parts_cons in Hd.
    destruct cfg as [f m|s|v].
    + destruct (m !! part) as [sub|] eqn:Em.
      * destruct (delete_parts (part' :: rest) sub) as [sub'|] eqn:Hs;
          [|discriminate Hd].
        injection Hd as <-.
        rewrite delete_parts_cons, lookup_insert_eq, (IH _ _ Hs).
        cbn [mbind attempt_bind]. rewrite insert_insert_eq. reflexivity.
      * injection Hd as <-. rewrite delete_parts_cons, Em. reflexivity.
    + destruct (is_substring part s) eqn:Es; [discriminate Hd|].
      injection Hd as <-. rewrite delete_parts_cons, Es. reflexivity.
    + discriminate Hd.
Qed.

(** Only a value that is not a dictionary, met on the way, raises. *)
Lemma delete_parts_total parts cfg :
  parts <> [] ->
  (forall path v, path `prefix_of` removelast parts ->
                  select path cfg = Some v -> is_dict v = true) ->
  exists cfg', delete_parts parts cfg = Returns cfg'.
Proof.
  revert cfg.
  induction parts as [|part [|part' rest] IH]; intros cfg Hne H.
  - contradiction.
  - rewrite delete_parts_last.
    specialize (H [] cfg (prefix_nil _) eq_refl).
    destruct cfg; try discriminate H. eauto.
  - change (removelast (part :: part' :: rest))
      with (part :: removelast (part' :: rest)) in *.
    rewrite delete_parts_cons.
    pose proof (H [] cfg (prefix_nil _) eq_refl) as Hd.
    destruct cfg as [f m| |]; try discriminate Hd.
    destruct (m !! part) as [sub|] eqn:Em; [|eauto].
    destruct (IH sub ltac:(discriminate)) as [sub' ->]; [|eauto].
    intros path v Hp Hs. apply (H (part :: path) v).
    + apply prefix_cons, Hp.
    + cbn [select]. rewrite Em. exact Hs.
Qed.
End DeleteParam.

Lemma select_app path path' cfg :
  select (path ++ path') cfg = select path cfg ≫= select path'.
Proof.
  revert cfg. induction path as [|k path IH]; intros cfg; [reflexivity|].
  cbn [app select]. destruct cfg as [f m| |]; try reflexivity.
  destruct (m !! k); cbn [mbind option_bind]; [apply IH | reflexivity].
Qed.

Lemma delete_parts_absent parts cfg cfg' :
  delete_parts parts cfg = Returns cfg' -> select parts cfg' = None.
Proof.
  intros Hd.
  assert (Hne : parts <> []) by (intros ->; discriminate Hd).
  destruct (select (removelast parts) cfg) as [[f m|s|v]|] eqn:Hs;
    [ destruct (delete_parts_effect parts cfg f m Hne Hs)
        as (c & Hc & _ & Hn); congruence | | | ];
    (assert (cfg' = cfg) as ->
       by (apply (delete_parts_noop _ _ _ Hd); intros; congruence));
    rewrite (app_removelast_last "" Hne), select_app, Hs; reflexivity.
Qed.

(** X17: [_delete_param] on a name whose path leads to a dictionary.
    The call returns; in the dictionary that holds the last part of the
    name the key is gone, all its other keys are kept, and its struct
    flag is left on whatever it was before (the flag is set, not
    restored); the parameter can no longer be reached. *)
Theorem delete_param_removes_and_locks (cfg : config) (full_name : string)
    (flag : option bool) (content : gmap string config) :
  select (removelast (str_split "." full_name)) cfg
  = Some (DictConfig flag content) ->
  exists cfg',
    _delete_param cfg full_name = Returns cfg' /\
    select (removelast (str_split "." full_name)) cfg'
    = Some (DictConfig (Some true)
              (delete (List.last (str_split "." full_name) "") content)) /\
    select (str_split "." full_name) cfg' = None.
Proof.
  intros H. unfold _delete_param.
  apply (delete_parts_effect _ _ flag content);
    [apply str_split_nonempty | exact H].
Qed.

Lemma delete_param_removes_and_locks_witness :
  exists cfg',
    _delete_param stored_cfg "conditioners.args.drop_desc_p" = Returns cfg' /\
    select (removelast (str_split "." "conditioners.args.drop_desc_p")) cfg'
    = Some (DictConfig (Some true)
              (delete (List.last (str_split "." "conditioners.args.drop_desc_p") "")
                 {[ "merge_text_conditions_p" := Value (PyFloat 0.25);
                    "drop_desc_p" := Value (PyFloat 0.5) ]})) /\
    select (str_split "." "conditioners.args.drop_desc_p") cfg' = None.
Proof.
  apply (delete_param_removes_and_locks stored_cfg
           "conditioners.args.drop_desc_p" None).
  vm_compute. reflexivity.
Defined.

(** X18: what [_delete_param] leaves alone.  After a call that returns,
    every path that does not pass through the deleted parameter and is
    not one of the dictionaries on the way to it holds the value it held
    before; and when the path to the parameter does not lead to a
    dictionary (a key on the way is missing), the whole tree is
    unchanged, struct flags included. *)
Theorem delete_param_keeps_the_rest (cfg cfg' : config) (full_name : string) :
  _delete_param cfg full_name = Returns cfg' ->
  (forall path,
      ~ path `prefix_of` removelast (str_split "." full_name) ->
      ~ str_split "." full_name `prefix_of` path ->
      select path cfg' = select path cfg) /\
  ((forall flag content,
       select (removelast (str_split "." full_name)) cfg
       <> Some (DictConfig flag content)) ->
   cfg' = cfg).
Proof.
  unfold _delete_param. intros Hd. split.
  - intros path H1 H2. exact (delete_parts_frame _ _ _ _ Hd H1 H2).
  - exact (delete_parts_noop _ _ _ Hd).
Qed.

Lemma delete_param_keeps_the_rest_witness :
  exists cfg',
    _delete_param stored_cfg "conditioners.args.drop_desc_p" = Returns cfg' /\
    (forall path,
        ~ path `prefix_of`
            removelast (str_split "." "conditioners.args.drop_desc_p") ->
        ~ str_split "." "conditioners.args.drop_desc_p" `prefix_of` path ->
        select path cfg' = select path stored_cfg) /\
    ((forall flag content,
         select (removelast (str_split "." "conditioners.args.drop_desc_p"))
           stored_cfg
         <> Some (DictConfig flag content)) ->
     cfg' = stored_cfg).
Proof.
  eexists. split; [vm_compute; reflexivity|].
  apply (delete_param_keeps_the_rest stored_cfg _
           "conditioners.args.drop_desc_p").
  vm_compute. reflexivity.
Defined.

(** X19: deleting twice is deleting once: after a call that returns, the
    same call on the result returns the result unchanged. *)
Theorem delete_param_is_idempotent (cfg cfg' : config) (full_name : string) :
  _delete_param cfg full_name = Returns cfg' ->
  _delete_param cfg' full_name = Returns cfg'.
Proof. unfold _delete_param. apply delete_parts_idem. Qed.

Lemma delete_param_is_idempotent_witness :
  exists cfg',
    _delete_param stored_cfg "conditioners.args.drop_desc_p" = Returns cfg' /\
    _delete_param cfg' "conditioners.args.drop_desc_p" = Returns cfg'.
Proof.
  eexists. split; [vm_compute; reflexivity|].
  apply (delete_param_is_idempotent stored_cfg _
           "conditioners.args.drop_desc_p").
  vm_compute. reflexivity.
Defined.

(** X20: [_delete_param] raises only on a value that is not a
    dictionary: when every value met on the way to the parameter (the
    root, and what each part but the last leads to) is a dictionary, the
    call returns, whether or not the keys exist. *)
Theorem delete_param_returns_on_dictionaries (cfg : config)
    (full_name : string) :
  (forall path v,
      path `prefix_of` removelast (str_split "." full_name) ->
      select path cfg = Some v -> is_dict v = true) ->
  exists cfg', _delete_param cfg full_name = Returns cfg'.
Proof.
  intros H. unfold _delete_param.
  apply delete_parts_total; [apply str_split_nonempty | exact H].
Qed.

Lemma delete_param_returns_on_dictionaries_witness :
  exists cfg',
    _delete_param (DictConfig None ∅) "conditioners.args.drop_desc_p"
    = Returns cfg'.
Proof.
  apply (delete_param_returns_on_dictionaries (DictConfig None ∅)
           "conditioners.args.drop_desc_p").
  intros path v [k Hk] Hs. vm_compute in Hk.
  destruct path as [|a path]; [injection Hs as <-; reflexivity|].
  cbn [select] in Hs. rewrite lookup_empty in Hs. discriminate Hs.
Defined.

Lemma setattr_Returns cfg key v cfg' :
  setattr cfg key v = Returns cfg' ->
  exists flag content,
    cfg = DictConfig flag content /\
    cfg' = DictConfig flag (<[key := v]> content).
Proof.
  unfold setattr. destruct cfg as [f m| |]; try discriminate.
  destruct (_ && _); [discriminate|]. intros [= <-]. eauto.
Qed.

Lemma parts_chroma_chord :
  str_split "." "conditioners.self_wav.chroma_chord.cache_path"
  = ["conditioners"; "self_wav"; "chroma_chord"; "cache_path"].
Proof. vm_compute. reflexivity. Qed.

Lemma parts_chroma_stem :
  str_split "." "conditioners.self_wav.chroma_stem.cache_path"
  = ["conditioners"; "self_wav"; "chroma_stem"; "cache_path"].
Proof. vm_compute. reflexivity. Qed.

Lemma parts_merge_text :
  str_split "." "conditioners.args.merge_text_conditions_p"
  = ["conditioners"; "args"; "merge_text_conditions_p"].
Proof. vm_compute. reflexivity. Qed.

Lemma parts_drop_desc :
  str_split "." "conditioners.args.drop_desc_p"
  = ["conditioners"; "args"; "drop_desc_p"].
Proof. vm_compute. reflexivity. Qed.

Lemma attempt_bind_Returns {A B : Type} (r : attempt A) (k : A -> attempt B) b :
  r ≫= k = Returns b -> exists a, r = Returns a /\ k a = Returns b.
Proof. destruct r as [a|e]; [eauto | discriminate]. Qed.

(** The steps of [load_ckpt_cfg], one by one. *)
Lemma load_ckpt_cfg_steps cfg device cfg' :
  load_ckpt_cfg cfg device = Returns cfg' ->
  exists flag content c3 c4 c5,
    cfg = DictConfig flag content /\
    delete_parts ["conditioners"; "self_wav"; "chroma_chord"; "cache_path"]
      (DictConfig flag
         (<["dtype" := StrValue (if String.eqb device "cpu" then "float32"
                                 else "float16")]>
            (<["device" := StrValue device]> content)))
    = Returns c3 /\
    delete_parts ["conditioners"; "self_wav"; "chroma_stem"; "cache_path"] c3
    = Returns c4 /\
    delete_parts ["conditioners"; "args"; "merge_text_conditions_p"] c4
    = Returns c5 /\
    delete_parts ["conditioners"; "args"; "drop_desc_p"] c5 = Returns cfg'.
Proof.
  unfold load_ckpt_cfg, _delete_param.
  rewrite parts_chroma_chord, parts_chroma_stem, parts_merge_text,
    parts_drop_desc.
  intros H.
  apply attempt_bind_Returns in H as (c1 & E1 & H).
  apply setattr_Returns in E1 as (f & m & -> & ->).
  apply attempt_bind_Returns in H as (c2 & E2 & H).
  assert (Hcpu : attr_is (DictConfig f (<["device" := StrValue device]> m))
                   "device" "cpu" = String.eqb device "cpu").
  { unfold attr_is. rewrite lookup_insert_eq. reflexivity. }
  rewrite Hcpu in E2.
  assert (E2' : setattr (DictConfig f (<["device" := StrValue device]> m))
                  "dtype"
                  (StrValue (if String.eqb device "cpu" then "float32"
                             else "float16")) = Returns c2).
  { destruct (String.eqb device "cpu"); exact E2. }
  apply setattr_Returns in E2' as (f' & m' & E & ->).
  injection E as <- <-.
  apply attempt_bind_Returns in H as (c3 & E3 & H).
  apply attempt_bind_Returns in H as (c4 & E4 & H).
  apply attempt_bind_Returns in H as (c5 & E5 & E6).
  exists f, m, c3, c4, c5. auto.
Qed.

Lemma conditioners_frame cfg cfg' key path rest :
  delete_parts ("conditioners" :: rest) cfg = Returns cfg' ->
  rest <> [] -> key <> "conditioners" ->
  select (key :: path) cfg' = select (key :: path) cfg.
Proof.
  intros Hd Hrest Hk.
  apply (delete_parts_frame _ _ _ _ Hd).
  - destruct rest as [|r rest]; [contradiction|].
    change (removelast ("conditioners" :: r :: rest))
      with ("conditioners" :: removelast (r :: rest)).
    intros HH. apply prefix_cons_inv_1 in HH. contradiction.
  - intros HH. apply prefix_cons_inv_1 in HH. congruence.
Qed.

Lemma delete_parts_keeps_absent parts cfg cfg' path :
  delete_parts parts cfg = Returns cfg' ->
  ~ path `prefix_of` removelast parts ->
  ~ parts `prefix_of` path ->
  select path cfg = None -> select path cfg' = None.
Proof.
  intros Hd H1 H2 H.
  rewrite (delete_parts_frame _ _ _ _ Hd H1 H2). exact H.
Qed.

Ltac apart := intros [k Hk]; cbn in Hk; discriminate Hk.

(** X21: the configuration [load_ckpt] attaches to the model.  When lines
    61-70 run through: [device] is the device given, [dtype] is
    ["float32"] exactly on ["cpu"] and ["float16"] on any other device,
    none of the four parameters can be reached, and every value under a
    top-level key other than [device], [dtype] and [conditioners] is the
    stored one. *)
Theorem load_ckpt_cfg_result (cfg cfg' : config) (device : string) :
  load_ckpt_cfg cfg device = Returns cfg' ->
  select ["device"] cfg' = Some (StrValue device) /\
  select ["dtype"] cfg'
  = Some (StrValue (if String.eqb device "cpu" then "float32"
                    else "float16")) /\
  select ["conditioners"; "self_wav"; "chroma_chord"; "cache_path"] cfg'
  = None /\
  select ["conditioners"; "self_wav"; "chroma_stem"; "cache_path"] cfg'
  = None /\
  select ["conditioners"; "args"; "merge_text_conditions_p"] cfg' = None /\
  select ["conditioners"; "args"; "drop_desc_p"] cfg' = None /\
  (forall key path,
      key <> "device" -> key <> "dtype" -> key <> "conditioners" ->
      select (key :: path) cfg' = select (key :: path) cfg).
Proof.
  intros H.
  apply load_ckpt_cfg_steps in H
    as (f & m & c3 & c4 & c5 & -> & E3 & E4 & E5 & E6).
  assert (Hframe : forall key path, key <> "conditioners" ->
            select (key :: path) cfg'
            = select (key :: path)
                (DictConfig f
                   (<["dtype" := StrValue (if String.eqb device "cpu"
                                           then "float32" else "float16")]>
                      (<["device" := StrValue device]> m)))).
  { intros key path Hk.
    rewrite (conditioners_frame _ _ key path _ E6) by (discriminate || exact Hk).
    rewrite (conditioners_frame _ _ key path _ E5) by (discriminate || exact Hk).
    rewrite (conditioners_frame _ _ key path _ E4) by (discriminate || exact Hk).
    rewrite (conditioners_frame _ _ key path _ E3) by (discriminate || exact Hk).
    reflexivity. }
  pose proof (delete_parts_absent _ _ _ E3) as A3.
  pose proof (delete_parts_absent _ _ _ E4) as A4.
  pose proof (delete_parts_absent _ _ _ E5) as A5.
  pose proof (delete_parts_absent _ _ _ E6) as A6.
  split.
  { rewrite Hframe by discriminate. cbn [select].
    rewrite lookup_insert_ne, lookup_insert_eq by discriminate. reflexivity. }
  split.
  { rewrite Hframe by discriminate. cbn [select].
    rewrite lookup_insert_eq. reflexivity. }
  split.
  { apply (delete_parts_keeps_absent _ _ _ _ E6); [apart | apart |].
    apply (delete_parts_keeps_absent _ _ _ _ E5); [apart | apart |].
    apply (delete_parts_keeps_absent _ _ _ _ E4); [apart | apart |].
    exact A3. }
  split.
  { apply (delete_parts_keeps_absent _ _ _ _ E6); [apart | apart |].
    apply (delete_parts_keeps_absent _ _ _ _ E5); [apart | apart |].
    exact A4. }
  split.
  { apply (delete_parts_keeps_absent _ _ _ _ E6); [apart | apart |].
    exact A5. }
  split; [exact A6|].
  intros key path K1 K2 K3. rewrite Hframe by exact K3.
  cbn [select]. rewrite !lookup_insert_ne by congruence. reflexivity.
Qed.

Lemma load_ckpt_cfg_result_witness :
  exists cfg',
    load_ckpt_cfg stored_cfg "cpu" = Returns cfg' /\
    select ["device"] cfg' = Some (StrValue "cpu") /\
    select ["dtype"] cfg'
    = Some (StrValue (if String.eqb "cpu" "cpu" then "float32"
                      else "float16")) /\
    select ["conditioners"; "self_wav"; "chroma_chord"; "cache_path"] cfg'
    = None /\
    select ["conditioners"; "self_wav"; "chroma_stem"; "cache_path"] cfg'
    = None /\
    select ["conditioners"; "args"; "merge_text_conditions_p"] cfg' = None /\
    select ["conditioners"; "args"; "drop_desc_p"] cfg' = None /\
    (forall key path,
        key <> "device" -> key <> "dtype" -> key <> "conditioners" ->
        select (key :: path) cfg' = select (key :: path) stored_cfg).
Proof.
  eexists. split; [vm_compute; reflexivity|].
  apply (load_ckpt_cfg_result stored_cfg _ "cpu").
  vm_compute. reflexivity.
Defined.

(** * [separate_vocals] *)

Section SeparateVocalsFacts.
Context {T : Type} (add : T -> T -> T) (convert_audio : T -> Z -> Z -> Z -> T).

Lemma list_index_bound name l i :
  list_index name l = Some i -> (i < length l)%nat.
Proof.
  revert i. induction l as [|y l IH]; intros i; simpl; [discriminate|].
  destruct (String.eqb y name); [intros [= <-]; lia|].
  destruct (list_index name l) as [j|]; [|discriminate].
  intros [= <-]. specialize (IH j eq_refl). lia.
Qed.

Lemma list_index_None name l :
  list_index name l = None <-> ~ In name l.
Proof.
  induction l as [|y l IH]; simpl; [tauto|].
  destruct (String.eqb_spec y name) as [->|Hne].
  - split; [discriminate | tauto].
  - destruct (list_index name l) as [j|]; simpl.
    + split; [discriminate|]. intros H. exfalso. apply H. right.
      destruct (in_dec string_dec name l) as [Hin|Hin]; [exact Hin|].
      apply IH in Hin. discriminate Hin.
    + split; [|reflexivity]. intros _ [H|H]; [congruence|].
      apply (proj1 IH eq_refl H).
Qed.

Lemma list_index_named name (l : list string) (stems : list T) :
  length stems = length l ->
  match list_index name l with
  | None => None
  | Some i => stems !! i
  end = named T name (zip l stems).
Proof.
  revert stems. induction l as [|y l IH]; intros [|t stems] Hlen;
    try discriminate Hlen; [reflexivity|].
  simpl. destruct (String.eqb y name); [reflexivity|].
  rewrite <- (IH stems) by (simpl in Hlen; lia).
  destruct (list_index name l); reflexivity.
Qed.

(** With one stem per source, a stem is found by its name. *)
Lemma stem_named (d : separator T) (stems : list T) name :
  length stems = length (sources d) ->
  stem T d stems name
  = match named T name (zip (sources d) stems) with
    | Some t => Returns t
    | None => Raises (Exn (ValueError ("'" +:+ name +:+ "' is not in list")))
    end.
Proof.
  intros Hlen. unfold stem.
  rewrite <- (list_index_named name (sources d) stems Hlen).
  destruct (list_index name (sources d)) as [i|] eqn:Ei; [|reflexivity].
  apply list_index_bound in Ei. rewrite <- Hlen in Ei.
  destruct (lookup_lt_is_Some_2 stems i Ei) as [t ->]. reflexivity.
Qed.

Lemma named_perm name (l l' : list (string * T)) :
  NoDup (l.*1) -> l ≡ₚ l' -> named T name l = named T name l'.
Proof.
  intros Hnd Hp. induction Hp as [|[k t] l l' Hp IH|[k1 t1] [k2 t2] l|l l' l'' H1 IH1 H2 IH2].
  - reflexivity.
  - simpl. destruct (String.eqb k name); [reflexivity|].
    apply IH. simpl in Hnd. apply NoDup_cons in Hnd as [_ Hnd]. exact Hnd.
  - simpl. destruct (String.eqb_spec k1 name) as [->|H1];
      destruct (String.eqb_spec k2 name) as [->|H2]; try reflexivity.
    exfalso. simpl in Hnd. apply NoDup_cons in Hnd as [Hnd _].
    apply Hnd, list_elem_of_here.
  - rewrite IH1 by exact Hnd. apply IH2.
    rewrite <- H1. exact Hnd.
Qed.

(** X22: the stems are picked by name.  Two separators with the same
    rate and channels whose stems, paired with the names of their
    sources, are the same up to order, give the same vocals and the same
    background: the order in which a separator lists its sources does not
    matter. *)
Theorem separate_vocals_by_name (d d' : separator T) (model_sample_rate : Z)
    (music_input : T) (sr : Z) :
  samplerate d' = samplerate d ->
  audio_channels d' = audio_channels d ->
  NoDup (sources d) ->
  (forall wav, length (apply_model d wav) = length (sources d)) ->
  (forall wav, length (apply_model d' wav) = length (sources d')) ->
  (forall wav, zip (sources d) (apply_model d wav)
               ≡ₚ zip (sources d') (apply_model d' wav)) ->
  separate_vocals T add convert_audio d' model_sample_rate music_input sr
  = separate_vocals T add convert_audio d model_sample_rate music_input sr.
Proof.
  intros Hrate Hch Hnd Hlen Hlen' Hperm.
  unfold separate_vocals. rewrite Hrate, Hch. cbv zeta.
  set (wav := convert_audio music_input sr (samplerate d) (audio_channels d)).
  assert (Hn : forall name,
             stem T d' (apply_model d' wav) name
             = stem T d (apply_model d wav) name).
  { intros name.
    rewrite (stem_named d' _ name (Hlen' wav)),
      (stem_named d _ name (Hlen wav)).
    assert (HND : NoDup (zip (sources d) (apply_model d wav)).*1)
      by (rewrite fst_zip by (rewrite Hlen; lia); exact Hnd).
    rewrite (named_perm name _ _ HND (Hperm wav)). reflexivity. }
  rewrite !Hn. reflexivity.
Qed.

Lemma stem_raises_ValueError (d : separator T) (stems : list T) name :
  length stems = length (sources d) ->
  (exists t, stem T d stems name = Returns t)
  \/ (exists msg, stem T d stems name = Raises (Exn (ValueError msg))).
Proof.
  intros Hlen. rewrite (stem_named d stems name Hlen).
  destruct (named T name _); eauto.
Qed.

Lemma stem_missing (d : separator T) (stems : list T) name :
  ~ In name (sources d) ->
  exists msg, stem T d stems name = Raises (Exn (ValueError msg)).
Proof.
  intros H. apply list_index_None in H. unfold stem. rewrite H. eauto.
Qed.

(** X23: a separator that lacks one of the four sources [drums],
    [other], [bass], [vocals], and returns one stem per source it lists,
    makes the call raise [ValueError], the exception of [list.index]. *)
Theorem separate_vocals_needs_four_sources (d : separator T)
    (model_sample_rate : Z) (music_input : T) (sr : Z) (name : string) :
  (forall wav, length (apply_model d wav) = length (sources d)) ->
  In name ["drums"; "other"; "bass"; "vocals"] ->
  ~ In name (sources d) ->
  exists msg,
    separate_vocals T add convert_audio d model_sample_rate music_input sr
    = Raises (Exn (ValueError msg)).
Proof.
  intros Hlen Hname Hmiss. unfold separate_vocals. cbv zeta.
  set (wav := convert_audio music_input sr (samplerate d) (audio_channels d)).
  pose proof (stem_missing d (apply_model d wav) name Hmiss) as [msg Hm].
  destruct (stem_raises_ValueError d (apply_model d wav) "drums" (Hlen wav))
    as [[t1 E1] | [m1 E1]]; rewrite E1; cbn [mbind attempt_bind]; [|eauto].
  destruct (stem_raises_ValueError d (apply_model d wav) "other" (Hlen wav))
    as [[t2 E2] | [m2 E2]]; rewrite E2; cbn [mbind attempt_bind]; [|eauto].
  destruct (stem_raises_ValueError d (apply_model d wav) "bass" (Hlen wav))
    as [[t3 E3] | [m3 E3]]; rewrite E3; cbn [mbind attempt_bind]; [|eauto].
  destruct (stem_raises_ValueError d (apply_model d wav) "vocals" (Hlen wav))
    as [[t4 E4] | [m4 E4]]; rewrite E4; cbn [mbind attempt_bind]; [|eauto].
  exfalso. simpl in Hname.
  destruct Hname as [<-|[<-|[<-|[<-|[]]]]]; congruence.
Qed.
End SeparateVocalsFacts.

Lemma separate_vocals_by_name_witness :
  separate_vocals Z Z.add keep_audio four_stems_swapped 32000 0 48000
  = separate_vocals Z Z.add keep_audio four_stems 32000 0 48000.
Proof.
  apply (separate_vocals_by_name Z.add keep_audio four_stems
           four_stems_swapped 32000 0 48000);
    [ reflexivity | reflexivity
    | apply (bool_decide_unpack _); vm_compute; exact I
    | reflexivity | reflexivity
    | intros wav; apply perm_swap ].
Defined.

Lemma separate_vocals_needs_four_sources_witness :
  exists msg,
    separate_vocals Z Z.add keep_audio no_vocals 32000 0 48000
    = Raises (Exn (ValueError msg)).
Proof.
  apply (separate_vocals_needs_four_sources Z.add keep_audio no_vocals
           32000 0 48000 "vocals");
    [ reflexivity | simpl; tauto | ].
  simpl. intros [H|[H|[H|[]]]]; discriminate H.
Defined.

(** * [_preprocess_audio] *)

Section PreprocessAudioFacts.
Context {Codes Scale : Type} (load_mono : string -> Z -> attempt tensor)
  (encode : tensor -> attempt (Codes * option Scale)).

(** X24: [_preprocess_audio] with a duration in whole seconds, at a
    positive sample rate.  Above 30 it raises [ValueError]; otherwise it
    encodes exactly the first [sample_rate * duration] samples when the
    duration is not negative and the clip has that many, and in every
    other case (a clip shorter than the duration asked for, a negative
    duration) the second assertion fails: the clip is never padded. *)
Theorem preprocess_with_duration (audio_path : string) (sample_rate d : Z)
    (mono : tensor) :
  load_mono audio_path sample_rate = Returns mono ->
  0 < sample_rate ->
  _preprocess_audio Codes Scale load_mono encode audio_path sample_rate
    (Some d)
  = if 30 <? d
    then Raises (Exn (ValueError "Duration cannot be more than 30 seconds"))
    else if (0 <=? d) && (sample_rate * d <=? Z.of_nat (length mono))
         then encoded Codes Scale encode
                (firstn (Z.to_nat (sample_rate * d)) mono)
         else Raises AssertionError.
Proof.
  intros Hload Hsr. unfold _preprocess_audio, encoded. rewrite Hload.
  cbn [mbind attempt_bind num_gt int_times int_of int_eq].
  destruct (30 <? d); [reflexivity|].
  unfold slice_to.
  destruct (Z.leb_spec 0 d) as [Hd|Hd]; cbn [andb].
  - assert (H0 : (0 <=? sample_rate * d) = true) by (apply Z.leb_le; nia).
    rewrite H0, length_firstn.
    destruct (Z.leb_spec (sample_rate * d) (Z.of_nat (length mono)))
      as [Hn|Hn].
    + assert (E : (Z.of_nat (Nat.min (Z.to_nat (sample_rate * d))
                               (length mono)) =? sample_rate * d) = true)
        by (apply Z.eqb_eq; lia).
      rewrite E. reflexivity.
    + assert (E : (Z.of_nat (Nat.min (Z.to_nat (sample_rate * d))
                               (length mono)) =? sample_rate * d) = false)
        by (apply Z.eqb_neq; lia).
      rewrite E. reflexivity.
  - assert (H0 : (0 <=? sample_rate * d) = false) by (apply Z.leb_gt; nia).
    rewrite H0.
    match goal with
    | |- context [Z.of_nat ?n =? sample_rate * d] =>
        assert (E : (Z.of_nat n =? sample_rate * d) = false)
          by (apply Z.eqb_neq; nia);
        rewrite E
    end.
    reflexivity.
Qed.

Lemma preprocess_no_duration_checked (audio_path : string) (sr : Z)
    (mono : tensor) :
  load_mono audio_path sr = Returns mono -> sr <> 0 ->
  no_duration_check sr (Z.of_nat (length mono)) = true ->
  _preprocess_audio Codes Scale load_mono encode audio_path sr None
  = if round_trip sr (Z.of_nat (length mono))
    then encoded Codes Scale encode mono
    else Raises AssertionError.
Proof.
  intros Hload Hsr Hck. unfold _preprocess_audio, encoded. rewrite Hload.
  cbn [mbind attempt_bind]. unfold int_truediv.
  apply Z.eqb_neq in Hsr. rewrite Hsr.
  cbn [from_result mbind attempt_bind num_gt int_times int_of int_eq].
  unfold no_duration_check in Hck. cbv zeta in Hck.
  apply andb_true_iff in Hck as [Hle Hck].
  apply negb_true_iff in Hle. rewrite Hle.
  set (n := Z.of_nat (length mono)) in *.
  destruct (int_of_float _) as [e|] eqn:He; [|discriminate Hck].
  cbn [mbind attempt_bind].
  destruct (round_trip sr n) eqn:Hrt.
  - apply Z.eqb_eq in Hck. subst e. unfold slice_to.
    assert (H0 : (0 <=? n) = true) by (apply Z.leb_le; subst n; lia).
    rewrite H0. subst n. rewrite Nat2Z.id, firstn_all.
    unfold round_trip in Hrt. rewrite Hrt. reflexivity.
  - apply andb_true_iff in Hck as [H0 Hne].
    apply negb_true_iff in Hne. unfold slice_to. rewrite H0.
    apply Z.leb_le in H0. rewrite length_firstn.
    replace (Z.of_nat (Nat.min (Z.to_nat e) (length mono)))
      with (Z.min n e) by (subst n; lia).
    rewrite Hne. reflexivity.
Qed.

End PreprocessAudioFacts.

Lemma checked_from_spec fuel sr n0 :
  checked_from fuel sr n0 = true ->
  forall k, (k < fuel)%nat -> no_duration_check sr (n0 + Z.of_nat k) = true.
Proof.
  revert n0. induction fuel as [|fuel IH]; intros n0 H k Hk; [lia|].
  simpl in H. apply andb_true_iff in H as [H1 H2].
  destruct k as [|k].
  - rewrite Z.add_0_r. exact H1.
  - replace (n0 + Z.of_nat (S k)) with (n0 + 1 + Z.of_nat k) by lia.
    apply IH; [exact H2 | lia].
Qed.

(** Every clip length up to one second at 32 kHz, checked one by one. *)
Lemma checked_at_32k : checked_from (Z.to_nat 32001) 32000 0 = true.
Proof. vm_cast_no_check (@eq_refl bool true). Qed.

(** X25: [_preprocess_audio] without a duration, at 32 kHz, on a clip of
    up to one second.  The duration is computed as [n / 32000] and the
    expected length as [32000 * (n / 32000)], both in binary64.  When
    that product is [n] again the whole clip is encoded; when it is not,
    the second assertion fails.  Both happen: 1000 samples pass, 1001
    samples raise [AssertionError]. *)
Theorem preprocess_without_duration_at_32k {Codes Scale : Type}
    (load_mono : string -> Z -> attempt tensor)
    (encode : tensor -> attempt (Codes * option Scale))
    (audio_path : string) (mono : tensor) :
  load_mono audio_path 32000 = Returns mono ->
  Z.of_nat (length mono) <= 32000 ->
  _preprocess_audio Codes Scale load_mono encode audio_path 32000 None
  = (if round_trip 32000 (Z.of_nat (length mono))
     then encoded Codes Scale encode mono
     else Raises AssertionError) /\
  round_trip 32000 1000 = true /\
  round_trip 32000 1001 = false.
Proof.
  intros Hload Hlen. split; [|split; reflexivity].
  apply preprocess_no_duration_checked; [exact Hload | discriminate |].
  pose proof (checked_from_spec _ _ _ checked_at_32k (length mono)) as H.
  rewrite Z.add_0_l in H. apply H. lia.
Qed.

Lemma preprocess_without_duration_at_32k_witness :
  _preprocess_audio nat unit (fun _ _ => Returns (repeat F32.zero 1001))
    (fun w => Returns (length w, None)) "clip.wav" 32000 None
  = (if round_trip 32000 (Z.of_nat (length (repeat F32.zero 1001)))
     then encoded nat unit (fun w => Returns (length w, None))
            (repeat F32.zero 1001)
     else Raises AssertionError) /\
  round_trip 32000 1000 = true /\
  round_trip 32000 1001 = false.
Proof.
  apply (preprocess_without_duration_at_32k
           (fun _ _ => Returns (repeat F32.zero 1001))
           (fun w => Returns (length w, None)) "clip.wav"
           (repeat F32.zero 1001));
    [reflexivity | rewrite repeat_length; lia].
Defined.

Lemma preprocess_with_duration_witness :
  _preprocess_audio nat unit (fun _ _ => Returns clip)
    (fun w => Returns (length w, None)) "clip.wav" 2 (Some 1)
  = if 30 <? 1
    then Raises (Exn (ValueError "Duration cannot be more than 30 seconds"))
    else if (0 <=? 1) && (2 * 1 <=? Z.of_nat (length clip))
         then encoded nat unit (fun w => Returns (length w, None))
                (firstn (Z.to_nat (2 * 1)) clip)
         else Raises AssertionError.
Proof.
  apply (preprocess_with_duration (fun _ _ => Returns clip)
           (fun w => Returns (length w, None)) "clip.wav" 2 1 clip);
    [reflexivity | lia].
Defined.

(** * The predictor object *)

Lemma call_keeps_beatnet (self : predictor) (c : method_call) :
  after_call self c !! "beatnet" = self !! "beatnet".
Proof.
  destruct c as [cuda|[cfg|]]; unfold after_call, setup, assign_model;
    rewrite ?lookup_insert_ne by discriminate; reflexivity.
Qed.

Lemma calls_keep_beatnet (calls : list method_call) (self : predictor) :
  fold_left after_call calls self !! "beatnet" = self !! "beatnet".
Proof.
  revert self. induction calls as [|c calls IH]; intros self; [reflexivity|].
  simpl. rewrite IH. apply call_keeps_beatnet.
Qed.

(** X26: [estimate_beats] cannot return.  It reads [self.beatnet], which
    neither [setup] nor [predict] assigns: on a predictor that started
    without attributes, after any sequence of [setup] and [predict]
    calls, it raises [AttributeError] before anything is resampled. *)
Theorem estimate_beats_always_raises {Beats Audio : Type}
    (resample : Audio -> Z -> Z -> Audio) (process : Audio -> Beats)
    (calls : list method_call) (wav : Audio) (sample_rate : Z) :
  estimate_beats Beats Audio resample process (fold_left after_call calls ∅)
    wav sample_rate
  = Raises AttributeError.
Proof.
  unfold estimate_beats. rewrite calls_keep_beatnet, lookup_empty.
  reflexivity.
Qed.

(** X27: the device of [_load_model].  Called without a device on a
    predictor that has been set up, whatever [setup] and [predict] calls
    followed, it hands the device the last [setup] chose ("cuda" or
    "cpu"), the model id and the cache directory to both loaders; called
    before any [setup] it raises [AttributeError]. *)
Theorem load_model_uses_setup_device {Compression LM : Type}
    (load_compression_model : string -> attribute -> string -> Compression)
    (load_lm_model : string -> attribute -> string -> LM)
    (cuda_is_available : bool) (calls : list method_call)
    (model_path model_id : string) :
  (exists device,
      (device = "cuda" \/ device = "cpu") /\
      _load_model Compression LM load_compression_model load_lm_model
        (fold_left after_call calls (setup cuda_is_available ∅))
        model_path model_id None
      = Returns (model_id,
                 load_compression_model model_id (Device device) model_path,
                 load_lm_model model_id (Device device) model_path)) /\
  _load_model Compression LM load_compression_model load_lm_model
    (setup cuda_is_available ∅) model_path model_id None
  = Returns (model_id,
             load_compression_model model_id
               (Device (if cuda_is_available then "cuda" else "cpu"))
               model_path,
             load_lm_model model_id
               (Device (if cuda_is_available then "cuda" else "cpu"))
               model_path) /\
  _load_model Compression LM load_compression_model load_lm_model ∅
    model_path model_id None
  = Raises AttributeError.
Proof.
  split; [|split; reflexivity].
  assert (H : exists d, (d = "cuda" \/ d = "cpu") /\
                fold_left after_call calls (setup cuda_is_available ∅)
                !! "device" = Some (Device d)).
  { assert (H0 : exists d, (d = "cuda" \/ d = "cpu") /\
                   setup cuda_is_available ∅ !! "device" = Some (Device d)).
    { exists (if cuda_is_available then "cuda" else "cpu").
      split; [destruct cuda_is_available; auto | reflexivity]. }
    revert H0. generalize (setup cuda_is_available ∅).
    induction calls as [|c calls IH]; intros self Hs; [exact Hs|].
    simpl. apply IH. destruct Hs as (d & Hd & Hl).
    destruct c as [cuda|[cfg|]]; unfold after_call, setup, assign_model.
    - exists (if cuda then "cuda" else "cpu").
      split; [destruct cuda; auto|].
      rewrite lookup_insert_ne, lookup_insert_eq by discriminate.
      reflexivity.
    - exists d. rewrite lookup_insert_ne by discriminate. auto.
    - eauto. }
  destruct H as (d & Hd & Hl). exists d. split; [exact Hd|].
  unfold _load_model. rewrite Hl. reflexivity.
Qed.
